(** * apple-reminders-mcp: the AppleScript executor

    A shallow embedding of [src/applescript-executor.ts]: the command
    builders, the bridge to [osascript] and the decoders of its text output,
    with the properties of the specification stated over them.

    JavaScript strings are sequences of UTF-16 code units; they are modelled
    as lists of code units ([N]), so that the field sentinel (three code
    units U+00A7) and the Unicode white space removed by [trim] are what they
    are in the source. *)

From Stdlib Require Import ZArith NArith String Ascii List Bool Lia.
From Stdlib Require Import DecimalString DecimalPos.
From stdpp Require Import base option list.

Local Open Scope N_scope.

(** ** Strings *)

Abbreviation jsstring := (Datatypes.list N).

(** An ASCII literal of the source as a list of code units. *)
Fixpoint lit (s : string) : jsstring :=
  match s with
  | EmptyString => []
  | String a s' => N_of_ascii a :: lit s'
  end.
Arguments lit s%_string.

Definition dq : N := 34.        (* the double quote *)
Definition sq : N := 39.        (* the single quote *)
Definition backslash : N := 92.
Definition lf : N := 10.        (* '\n' *)
Definition section_sign : N := 167.  (* U+00A7 *)
Definition not_sign : N := 172.      (* U+00AC, AppleScript's line continuation *)

(** The field sentinel of the reminder lines and the group separator of the
    list enumeration. *)
Definition sentinel : jsstring := [section_sign; section_sign; section_sign].
Definition groupSeparator : jsstring := lit "|||".

(** A string is truthy when it is not empty. *)
Definition truthy (s : jsstring) : bool :=
  match s with [] => false | _ :: _ => true end.

(** [x || d] for a possibly undefined string [x]. *)
Definition orElse (x : option jsstring) (d : jsstring) : jsstring :=
  match x with
  | Some s => if truthy s then s else d
  | None => d
  end.

(** [x || undefined]. *)
Definition orUndefined (x : option jsstring) : option jsstring :=
  match x with
  | Some s => if truthy s then Some s else None
  | None => None
  end.

(** White space and line terminators, the code units [trim] and [parseInt]
    strip. *)
Definition isWhiteSpace (c : N) : bool :=
  (c =? 9) || (c =? 10) || (c =? 11) || (c =? 12) || (c =? 13) || (c =? 32)
  || (c =? 160) || (c =? 5760) || ((8192 <=? c) && (c <=? 8202))
  || (c =? 8232) || (c =? 8233) || (c =? 8239) || (c =? 8287)
  || (c =? 12288) || (c =? 65279).

Fixpoint trimStart (s : jsstring) : jsstring :=
  match s with
  | [] => []
  | c :: s' => if isWhiteSpace c then trimStart s' else s
  end.

Definition trimEnd (s : jsstring) : jsstring := rev (trimStart (rev s)).

Definition trim (s : jsstring) : jsstring := trimEnd (trimStart s).

Fixpoint isPrefix (p s : jsstring) : bool :=
  match p, s with
  | [], _ => true
  | _ :: _, [] => false
  | a :: p', b :: s' => (a =? b) && isPrefix p' s'
  end.

Definition consChar (c : N) (pieces : list jsstring) : list jsstring :=
  match pieces with
  | [] => [[c]]
  | p :: ps => (c :: p) :: ps
  end.

(** [s.split(sep)] for a non-empty separator, as at its three call sites:
    the pieces between the occurrences of [sep], found from the left and not
    overlapping. [skip] counts the code units of a matched separator still to
    pass over. *)
Fixpoint splitFrom (sep : jsstring) (skip : nat) (s : jsstring) : list jsstring :=
  match s with
  | [] => [[]]
  | c :: s' =>
      match skip with
      | S k => splitFrom sep k s'
      | O =>
          if isPrefix sep s
          then [] :: splitFrom sep (length sep - 1) s'
          else consChar c (splitFrom sep 0 s')
      end
  end.

Definition split (sep s : jsstring) : list jsstring := splitFrom sep 0 s.

(** [pieces.join(sep)]. *)
Fixpoint join (sep : jsstring) (pieces : list jsstring) : jsstring :=
  match pieces with
  | [] => []
  | [p] => p
  | p :: ps => p ++ sep ++ join sep ps
  end.

(** [s.replace(/'/g, "\\'")]: a backslash before every single quote. *)
Fixpoint escapeSingleQuotes (s : jsstring) : jsstring :=
  match s with
  | [] => []
  | c :: s' =>
      if c =? sq then backslash :: sq :: escapeSingleQuotes s'
      else c :: escapeSingleQuotes s'
  end.

(** ** Numbers *)

(** The numbers this layer meets: the integers, NaN and the infinities that
    [parseInt] produces. *)
Inductive number : Type :=
  | NaN
  | Num (z : Z)
  | Infinity (negative : bool).

Definition number_truthy (n : number) : bool :=
  match n with
  | NaN => false
  | Num z => negb (z =? 0)%Z
  | Infinity _ => true
  end.

(** The Number value of a mathematical integer: itself below 2^53, beyond
    that the nearest double, ties to the even significand. *)
Definition toNumber (z : Z) : number :=
  let a := Z.abs z in
  if (a <? 2 ^ 53)%Z then Num z
  else
    let e := (Z.log2 a - 52)%Z in
    let q := Z.shiftr a e in
    let r := (a - Z.shiftl q e)%Z in
    let half := (2 ^ (e - 1))%Z in
    let q' := if (half <? r)%Z || ((half =? r)%Z && Z.odd q) then (q + 1)%Z else q in
    let v := (q' * 2 ^ e)%Z in
    if (2 ^ 1024 <=? v)%Z then Infinity (z <? 0)%Z else Num (Z.sgn z * v).

Definition digitValue (c : N) : option Z :=
  if (48 <=? c) && (c <=? 57) then Some (Z.of_N c - 48)%Z
  else if (97 <=? c) && (c <=? 122) then Some (Z.of_N c - 87)%Z
  else if (65 <=? c) && (c <=? 90) then Some (Z.of_N c - 55)%Z
  else None.

Definition radixDigit (R : Z) (c : N) : option Z :=
  match digitValue c with
  | Some d => if (d <? R)%Z then Some d else None
  | None => None
  end.

(** The values of the longest prefix of radix-[R] digits. *)
Fixpoint digitsPrefix (R : Z) (s : jsstring) : list Z :=
  match s with
  | [] => []
  | c :: s' =>
      match radixDigit R c with
      | Some d => d :: digitsPrefix R s'
      | None => []
      end
  end.

Definition mathInt (R : Z) (ds : list Z) : Z :=
  fold_left (fun acc d => (acc * R + d)%Z) ds 0%Z.

(** The steps of [parseInt(x)] with no radix argument: the sign, the text
    after the sign, and the radix with the text after a [0x] or [0X]
    prefix. *)
Definition signOf (S0 : jsstring) : Z :=
  match S0 with
  | c :: _ => if c =? 45 then (-1)%Z else 1%Z
  | [] => 1%Z
  end.

Definition stripSign (S0 : jsstring) : jsstring :=
  match S0 with
  | c :: t => if (c =? 43) || (c =? 45) then t else S0
  | [] => S0
  end.

Definition stripRadixPrefix (S1 : jsstring) : Z * jsstring :=
  match S1 with
  | c0 :: c1 :: t =>
      if (c0 =? 48) && ((c1 =? 120) || (c1 =? 88)) then (16%Z, t) else (10%Z, S1)
  | _ => (10%Z, S1)
  end.

(** [parseInt(x)]; [None] is [undefined], which [parseInt] first turns into
    the text "undefined". White space is skipped, then the longest run of
    digits is read; no digit at all is NaN. *)
Definition parseInt (x : option jsstring) : number :=
  let inputString := match x with Some s => s | None => lit "undefined" end in
  let S0 := trimStart inputString in
  let '(R, S2) := stripRadixPrefix (stripSign S0) in
  match digitsPrefix R S2 with
  | [] => NaN
  | ds => toNumber (signOf S0 * mathInt R ds)
  end.

(** [n || 0]. *)
Definition orZero (n : number) : number :=
  if number_truthy n then n else Num 0.

(** The text of a number in a template literal, for the numbers of this
    model: the decimal digits of an integer. This is what JavaScript prints
    for every integer of magnitude up to 2^53, the priorities of the data
    model among them; beyond that JavaScript prints the shortest digits that
    round to the number, and from 10^21 an exponent, which this definition
    does not follow. The properties below use the text of a number either
    under 2^53 or only through the code units it can hold. *)
Definition numberToString (n : number) : jsstring :=
  match n with
  | NaN => lit "NaN"
  | Num z => lit (NilZero.string_of_int (Z.to_int z))
  | Infinity false => lit "Infinity"
  | Infinity true => lit "-Infinity"
  end.

Definition boolToString (b : bool) : jsstring :=
  if b then lit "true" else lit "false".

(** ** Records *)

Module RemindersList.
Record t : Type := mk { name : jsstring; id : jsstring }.
End RemindersList.

Module Reminder.
Record t : Type := mk {
  id : jsstring;
  name : jsstring;
  body : option jsstring;
  completed : bool;
  list : jsstring;
  dueDate : option jsstring;
  priority : number;
  creationDate : jsstring;
  modificationDate : jsstring
}.
End Reminder.

(** The [updates] argument of [updateReminder]; [None] is an absent or
    undefined field. *)
Module Updates.
Record t : Type := mk {
  name : option jsstring;
  body : option jsstring;
  completed : option bool;
  dueDate : option jsstring;
  priority : option number
}.
End Updates.

(** ** Failures *)

Inductive exn : Type :=
  | Error (message : jsstring)   (* [new Error(message)] *)
  | TypeError.                   (* a method call on [undefined] *)

Inductive outcome (A : Type) : Type :=
  | Returned (a : A)
  | Thrown (e : exn).
Arguments Returned {A} a.
Arguments Thrown {A} e.

Definition bind {A B : Type} (m : outcome A) (k : A -> outcome B) : outcome B :=
  match m with
  | Returned a => k a
  | Thrown e => Thrown e
  end.

Notation "'await' x <- m 'in' k" := (bind m (fun x => k))
  (at level 10, x name, m at level 100, k at level 200).

(** What awaiting [execAsync(command)] gives: the standard output of a
    process that exited with status 0, or a rejection (the process could not
    be spawned or exited with another status) whose error prints as
    [diagnostic] in a template literal. *)
Inductive execResult : Type :=
  | Exited0 (stdout : jsstring)
  | Rejected (diagnostic : jsstring).

(** ** Text of the scripts *)

Definition quoted (s : jsstring) : jsstring := dq :: s ++ [dq].

(** A line break followed by [n] spaces, the layout of the template
    literals. *)
Definition indent (n : nat) : jsstring := lf :: repeat 32 n.

(** [(e) & "§§§" & ¬], one field of a reminder line and its continuation. *)
Definition fieldThen (e : string) : jsstring :=
  lit "(" ++ lit e ++ lit ") & " ++ quoted sentinel ++ lit " & " ++ [not_sign].

(** The statements that render one reminder [rem] as a sentinel-separated
    line, shared textually by [getReminders] and [searchReminders], which
    indent them by [n] and [n + 2] spaces. *)
Definition reminderInfoLines (n : nat) : jsstring :=
  indent n ++ lit "set reminderInfo to " ++ fieldThen "name of rem"
  ++ indent (n + 2) ++ fieldThen "body of rem"
  ++ indent (n + 2) ++ fieldThen "completed of rem"
  ++ indent (n + 2) ++ fieldThen "name of container of rem"
  ++ indent (n + 2) ++ fieldThen "id of rem"
  ++ indent (n + 2) ++ fieldThen "creation date of rem"
  ++ indent (n + 2) ++ fieldThen "modification date of rem"
  ++ indent (n + 2) ++ lit "(priority of rem)"
  ++ indent n ++ lit "try"
  ++ indent (n + 2) ++ lit "set dueInfo to due date of rem"
  ++ indent (n + 2) ++ lit "set reminderInfo to reminderInfo & " ++ quoted sentinel
       ++ lit " & dueInfo"
  ++ indent n ++ lit "on error"
  ++ indent (n + 2) ++ lit "set reminderInfo to reminderInfo & " ++ quoted sentinel
  ++ indent n ++ lit "end try".

Definition tellReminders : jsstring :=
  indent 6 ++ lit "tell application " ++ quoted (lit "Reminders").

Definition endTell : jsstring := indent 6 ++ lit "end tell" ++ indent 4.

Definition getReminderLists_script : jsstring :=
  tellReminders
  ++ indent 8 ++ lit "set listNames to {}"
  ++ indent 8 ++ lit "set listIds to {}"
  ++ indent 8 ++ lit "repeat with reminderList in every list"
  ++ indent 10 ++ lit "set end of listNames to name of reminderList"
  ++ indent 10 ++ lit "set end of listIds to id of reminderList"
  ++ indent 8 ++ lit "end repeat"
  ++ indent 8 ++ lit "return listNames & " ++ quoted groupSeparator ++ lit " & listIds"
  ++ endTell.

Definition listFilter (listName : option jsstring) : jsstring :=
  match listName with
  | Some l => if truthy l then lit "in list " ++ quoted l else []
  | None => []
  end.

Definition completedFilter (completed : option bool) : jsstring :=
  match completed with
  | Some c => lit "whose completed is " ++ boolToString c
  | None => []
  end.

Definition getReminders_script (listName : option jsstring) (completed : option bool)
  : jsstring :=
  tellReminders
  ++ indent 8 ++ lit "set reminderData to {}"
  ++ indent 8 ++ lit "set targetReminders to every reminder "
       ++ listFilter listName ++ lit " " ++ completedFilter completed
  ++ indent 8 ++ lit "repeat with rem in targetReminders"
  ++ reminderInfoLines 10
  ++ indent 10 ++ lit "set end of reminderData to reminderInfo"
  ++ indent 8 ++ lit "end repeat"
  ++ indent 8 ++ lit "return reminderData"
  ++ endTell.

Definition bodyScript (body : option jsstring) : jsstring :=
  match body with
  | Some b => if truthy b then lit "set body of newReminder to " ++ quoted b else []
  | None => []
  end.

Definition dueDateScript (dueDate : option jsstring) : jsstring :=
  match dueDate with
  | Some d =>
      if truthy d then lit "set due date of newReminder to date " ++ quoted d else []
  | None => []
  end.

Definition priorityScript (priority : option number) : jsstring :=
  match priority with
  | Some p =>
      if number_truthy p then lit "set priority of newReminder to " ++ numberToString p
      else []
  | None => []
  end.

Definition createReminder_script (name listName : jsstring)
    (body dueDate : option jsstring) (priority : option number) : jsstring :=
  tellReminders
  ++ indent 8 ++ lit "set targetList to list " ++ quoted listName
  ++ indent 8 ++ lit "set newReminder to make new reminder in targetList"
  ++ indent 8 ++ lit "set name of newReminder to " ++ quoted name
  ++ indent 8 ++ bodyScript body
  ++ indent 8 ++ dueDateScript dueDate
  ++ indent 8 ++ priorityScript priority
  ++ indent 8 ++ lit "return id of newReminder"
  ++ endTell.

(** The five assignment clauses of [updateReminder]. *)
Definition setName (v : jsstring) : jsstring :=
  lit "set name of targetReminder to " ++ quoted v.
Definition setBody (v : jsstring) : jsstring :=
  lit "set body of targetReminder to " ++ quoted v.
Definition setCompleted (v : bool) : jsstring :=
  lit "set completed of targetReminder to " ++ boolToString v.
Definition setDueDate (v : jsstring) : jsstring :=
  lit "set due date of targetReminder to date " ++ quoted v.
Definition setPriority (v : number) : jsstring :=
  lit "set priority of targetReminder to " ++ numberToString v.

(** [if (cond) updateCommands.push(clause)]. *)
Definition pushIf (cond : bool) (clause : jsstring) (cmds : list jsstring)
  : list jsstring :=
  if cond then cmds ++ [clause] else cmds.

Definition updateCommands (updates : Updates.t) : list jsstring :=
  let cmds := [] in
  let cmds := match Updates.name updates with
              | Some v => pushIf (truthy v) (setName v) cmds
              | None => cmds
              end in
  let cmds := match Updates.body updates with
              | Some v => pushIf true (setBody v) cmds
              | None => cmds
              end in
  let cmds := match Updates.completed updates with
              | Some v => pushIf true (setCompleted v) cmds
              | None => cmds
              end in
  let cmds := match Updates.dueDate updates with
              | Some v => pushIf (truthy v) (setDueDate v) cmds
              | None => cmds
              end in
  let cmds := match Updates.priority updates with
              | Some v => pushIf true (setPriority v) cmds
              | None => cmds
              end in
  cmds.

Definition updateReminder_script (reminderId : jsstring) (updates : Updates.t)
  : jsstring :=
  tellReminders
  ++ indent 8 ++ lit "set targetReminder to reminder id " ++ quoted reminderId
  ++ indent 8 ++ join (indent 8) (updateCommands updates)
  ++ endTell.

Definition deleteReminder_script (reminderId : jsstring) : jsstring :=
  tellReminders
  ++ indent 8 ++ lit "delete reminder id " ++ quoted reminderId
  ++ endTell.

Definition searchReminders_script (searchTerm : jsstring) : jsstring :=
  tellReminders
  ++ indent 8 ++ lit "set foundReminders to {}"
  ++ indent 8 ++ lit "set allReminders to every reminder"
  ++ indent 8 ++ lit "repeat with rem in allReminders"
  ++ indent 10 ++ lit "if (name of rem) contains " ++ quoted searchTerm
       ++ lit " or (body of rem) contains " ++ quoted searchTerm ++ lit " then"
  ++ reminderInfoLines 12
  ++ indent 12 ++ lit "set end of foundReminders to reminderInfo"
  ++ indent 10 ++ lit "end if"
  ++ indent 8 ++ lit "end repeat"
  ++ indent 8 ++ lit "return foundReminders"
  ++ endTell.

(** The shell command of [executeScript]. *)
Definition osascriptCommand (script : jsstring) : jsstring :=
  lit "osascript -e '" ++ escapeSingleQuotes script ++ lit "'".

(** ** Decoders *)

(** The body of [getReminderLists] after the script has run. Destructuring
    leaves [idsStr] undefined when [result] holds no group separator, and
    [idsStr.split] then throws. *)
Definition decodeLists (result : jsstring) : outcome (list RemindersList.t) :=
  match split groupSeparator result with
  | namesStr :: idsStr :: _ =>
      let names := split (lit ", ") namesStr in
      let ids := split (lit ", ") idsStr in
      Returned
        (imap (fun index name =>
                 RemindersList.mk (trim name) (orElse (trim <$> ids !! index) []))
              names)
  | _ => Thrown TypeError
  end.

(** The callback of [reminderLines.map] in [getReminders]. *)
Definition getReminders_decodeLine (line : jsstring) : Reminder.t :=
  let parts := split sentinel line in
  {| Reminder.name := orElse (parts !! 0%nat) [];
     Reminder.body := orUndefined (parts !! 1%nat);
     Reminder.completed := bool_decide (parts !! 2%nat = Some (lit "true"));
     Reminder.list := orElse (parts !! 3%nat) [];
     Reminder.id := orElse (parts !! 4%nat) [];
     Reminder.creationDate := orElse (parts !! 5%nat) [];
     Reminder.modificationDate := orElse (parts !! 6%nat) [];
     Reminder.priority := orZero (parseInt (parts !! 7%nat));
     Reminder.dueDate := orUndefined (parts !! 8%nat) |}.

(** The callback of [reminderLines.map] in [searchReminders]. *)
Definition searchReminders_decodeLine (line : jsstring) : Reminder.t :=
  let parts := split sentinel line in
  {| Reminder.name := orElse (parts !! 0%nat) [];
     Reminder.body := orUndefined (parts !! 1%nat);
     Reminder.completed := bool_decide (parts !! 2%nat = Some (lit "true"));
     Reminder.list := orElse (parts !! 3%nat) [];
     Reminder.id := orElse (parts !! 4%nat) [];
     Reminder.creationDate := orElse (parts !! 5%nat) [];
     Reminder.modificationDate := orElse (parts !! 6%nat) [];
     Reminder.priority := orZero (parseInt (parts !! 7%nat));
     Reminder.dueDate := orUndefined (parts !! 8%nat) |}.

(** [result.split('\n').filter(line => line.trim())]. *)
Definition reminderLines (result : jsstring) : list jsstring :=
  List.filter (fun line => truthy (trim line)) (split [lf] result).

Definition getReminders_decode (result : jsstring) : list Reminder.t :=
  if truthy result then map getReminders_decodeLine (reminderLines result) else [].

Definition searchReminders_decode (result : jsstring) : list Reminder.t :=
  if truthy result then map searchReminders_decodeLine (reminderLines result) else [].

(** ** The executor *)

Section Executor.

(** The host: what running a shell command gives. *)
Variable execAsync : jsstring -> execResult.

Definition executeScript (script : jsstring) : outcome jsstring :=
  match execAsync (osascriptCommand script) with
  | Exited0 stdout => Returned (trim stdout)
  | Rejected error =>
      Thrown (Error (lit "AppleScript execution failed: " ++ error))
  end.

Definition getReminderLists : outcome (list RemindersList.t) :=
  await result <- executeScript getReminderLists_script in
  decodeLists result.

Definition getReminders (listName : option jsstring) (completed : option bool)
  : outcome (list Reminder.t) :=
  await result <- executeScript (getReminders_script listName completed) in
  Returned (getReminders_decode result).

Definition createReminder (name listName : jsstring)
    (body dueDate : option jsstring) (priority : option number)
  : outcome jsstring :=
  executeScript (createReminder_script name listName body dueDate priority).

Definition updateReminder (reminderId : jsstring) (updates : Updates.t)
  : outcome unit :=
  await _ <- executeScript (updateReminder_script reminderId updates) in
  Returned tt.

Definition deleteReminder (reminderId : jsstring) : outcome unit :=
  await _ <- executeScript (deleteReminder_script reminderId) in
  Returned tt.

Definition searchReminders (searchTerm : jsstring) : outcome (list Reminder.t) :=
  await result <- executeScript (searchReminders_script searchTerm) in
  Returned (searchReminders_decode result).

End Executor.

(** ** The server: the tools it lists and the handler of a tool call *)

(** One entry of [properties] in an input schema. *)
Module Property.
Record t : Type := mk { name : jsstring; type : jsstring; description : jsstring }.
End Property.

(** One entry of the [tools] array. *)
Module Tool.
Record t : Type := mk {
  name : jsstring;
  description : jsstring;
  properties : list Property.t;
  required : list jsstring
}.
End Tool.

Definition dateFormat : jsstring := quoted (lit "MM/DD/YYYY HH:MM AM/PM").

(** What the handler of [ListToolsRequestSchema] returns. *)
Definition tools : list Tool.t :=
  [ Tool.mk (lit "list_reminder_lists")
      (lit "Get all reminder lists available in the Reminders app")
      [] [];
    Tool.mk (lit "get_reminders")
      (lit "Get reminders from a specific list or all lists, with optional filtering")
      [ Property.mk (lit "listName") (lit "string")
          (lit "Name of the reminder list to search in (optional)");
        Property.mk (lit "completed") (lit "boolean")
          (lit "Filter by completion status (optional)");
        Property.mk (lit "searchTerm") (lit "string")
          (lit "Search term to filter reminders by name or body (optional)") ]
      [];
    Tool.mk (lit "create_reminder")
      (lit "Create a new reminder in a specified list")
      [ Property.mk (lit "name") (lit "string") (lit "Name of the reminder");
        Property.mk (lit "listName") (lit "string")
          (lit "Name of the list to add the reminder to");
        Property.mk (lit "body") (lit "string")
          (lit "Optional body/notes for the reminder");
        Property.mk (lit "dueDate") (lit "string")
          (lit "Optional due date in format " ++ dateFormat);
        Property.mk (lit "priority") (lit "number")
          (lit "Priority level (0=none, 1=high, 5=medium, 9=low)") ]
      [lit "name"; lit "listName"];
    Tool.mk (lit "update_reminder")
      (lit "Update an existing reminder")
      [ Property.mk (lit "reminderId") (lit "string")
          (lit "ID of the reminder to update");
        Property.mk (lit "name") (lit "string") (lit "New name for the reminder");
        Property.mk (lit "body") (lit "string")
          (lit "New body/notes for the reminder");
        Property.mk (lit "completed") (lit "boolean")
          (lit "Mark reminder as completed or not");
        Property.mk (lit "dueDate") (lit "string")
          (lit "New due date in format " ++ dateFormat);
        Property.mk (lit "priority") (lit "number")
          (lit "New priority level (0=none, 1=high, 5=medium, 9=low)") ]
      [lit "reminderId"];
    Tool.mk (lit "delete_reminder")
      (lit "Delete a reminder by ID")
      [ Property.mk (lit "reminderId") (lit "string")
          (lit "ID of the reminder to delete") ]
      [lit "reminderId"];
    Tool.mk (lit "search_reminders")
      (lit "Search for reminders by name or body content")
      [ Property.mk (lit "searchTerm") (lit "string")
          (lit "Term to search for in reminder names and bodies") ]
      [lit "searchTerm"] ].

(** [request.params.arguments], a loosely typed bag: every field may be
    missing, whatever the cast of the handler says. *)
Module Arguments.
Record t : Type := mk {
  reminderId : option jsstring;
  name : option jsstring;
  listName : option jsstring;
  body : option jsstring;
  completed : option bool;
  dueDate : option jsstring;
  priority : option number;
  searchTerm : option jsstring
}.
End Arguments.

(** [request.params]: the tool name and the arguments, which a request may
    leave out. *)
Module Request.
Record t : Type := mk { name : jsstring; arguments : option Arguments.t }.
End Request.

(** What the handler returns: one text item, and [isError] when it is set. *)
Module ToolResult.
Record t : Type := mk { text : jsstring; isError : bool }.
End ToolResult.

(** A string-typed argument in a template literal or as the argument of an
    executor method that only interpolates it: a missing one reads
    [undefined]. *)
Definition interpolated (x : option jsstring) : jsstring :=
  match x with
  | Some s => s
  | None => lit "undefined"
  end.

(** [const { ... } = request.params.arguments]: destructuring [undefined]
    throws. *)
Definition destructure (request : Request.t) : outcome Arguments.t :=
  match Request.arguments request with
  | Some args => Returned args
  | None => Thrown TypeError
  end.

(** [const { reminderId, ...updates } = request.params.arguments], as far as
    [updateReminder] reads [updates]. *)
Definition restUpdates (args : Arguments.t) : Updates.t :=
  {| Updates.name := Arguments.name args;
     Updates.body := Arguments.body args;
     Updates.completed := Arguments.completed args;
     Updates.dueDate := Arguments.dueDate args;
     Updates.priority := Arguments.priority args |}.

(** [reminders.filter(r => r.list === listName)] under [if (listName)]. *)
Definition filterByList (listName : option jsstring) (reminders : list Reminder.t)
  : list Reminder.t :=
  match listName with
  | Some l =>
      if truthy l
      then List.filter (fun r => bool_decide (Reminder.list r = l)) reminders
      else reminders
  | None => reminders
  end.

(** [reminders.filter(r => r.completed === completed)] under
    [if (completed !== undefined)]. *)
Definition filterByCompleted (completed : option bool) (reminders : list Reminder.t)
  : list Reminder.t :=
  match completed with
  | Some c => List.filter (fun r => Bool.eqb (Reminder.completed r) c) reminders
  | None => reminders
  end.

Definition textResult (text : jsstring) : ToolResult.t := ToolResult.mk text false.

Definition errorResult (message : jsstring) : ToolResult.t :=
  ToolResult.mk (lit "Error: " ++ message) true.

Section Server.

(** The host, as for the executor. *)
Variable execAsync : jsstring -> execResult.

(** [JSON.stringify(value, null, 2)] on the two kinds of value the handler
    prints. *)
Variable stringifyLists : list RemindersList.t -> jsstring.
Variable stringifyReminders : list Reminder.t -> jsstring.

(** The engine's message of the type error raised while serving a request. *)
Variable typeErrorMessage : Request.t -> jsstring.

(** The reminders of the [get_reminders] case. *)
Definition getRemindersTool (args : Arguments.t) : outcome (list Reminder.t) :=
  let listName := Arguments.listName args in
  let completed := Arguments.completed args in
  match Arguments.searchTerm args with
  | Some searchTerm =>
      if truthy searchTerm
      then
        await reminders <- searchReminders execAsync searchTerm in
        Returned (filterByCompleted completed (filterByList listName reminders))
      else getReminders execAsync listName completed
  | None => getReminders execAsync listName completed
  end.

(** The [switch] inside the [try] of the handler of
    [CallToolRequestSchema]. *)
Definition callTool (request : Request.t) : outcome ToolResult.t :=
  let name := Request.name request in
  if bool_decide (name = lit "list_reminder_lists") then
    await lists <- getReminderLists execAsync in
    Returned (textResult (stringifyLists lists))
  else if bool_decide (name = lit "get_reminders") then
    await args <- destructure request in
    await reminders <- getRemindersTool args in
    Returned (textResult (stringifyReminders reminders))
  else if bool_decide (name = lit "create_reminder") then
    await args <- destructure request in
    await reminderId <-
      createReminder execAsync
        (interpolated (Arguments.name args)) (interpolated (Arguments.listName args))
        (Arguments.body args) (Arguments.dueDate args) (Arguments.priority args) in
    Returned (textResult (lit "Reminder created successfully with ID: " ++ reminderId))
  else if bool_decide (name = lit "update_reminder") then
    await args <- destructure request in
    let reminderId := interpolated (Arguments.reminderId args) in
    await _ <- updateReminder execAsync reminderId (restUpdates args) in
    Returned (textResult (lit "Reminder " ++ reminderId ++ lit " updated successfully"))
  else if bool_decide (name = lit "delete_reminder") then
    await args <- destructure request in
    let reminderId := interpolated (Arguments.reminderId args) in
    await _ <- deleteReminder execAsync reminderId in
    Returned (textResult (lit "Reminder " ++ reminderId ++ lit " deleted successfully"))
  else if bool_decide (name = lit "search_reminders") then
    await args <- destructure request in
    await reminders <-
      searchReminders execAsync (interpolated (Arguments.searchTerm args)) in
    Returned (textResult (stringifyReminders reminders))
  else Thrown (Error (lit "Unknown tool: " ++ name)).

(** [error.message] for what [callTool] can throw. *)
Definition errorMessage (request : Request.t) (error : exn) : jsstring :=
  match error with
  | Error message => message
  | TypeError => typeErrorMessage request
  end.

(** The handler of [CallToolRequestSchema]: the [try] and its [catch]. *)
Definition callToolHandler (request : Request.t) : ToolResult.t :=
  match callTool request with
  | Returned result => result
  | Thrown error => errorResult (errorMessage request error)
  end.

End Server.

(** ** Properties of the specification, as predicates over the model *)

(** A string that holds no code unit of the field sentinel. *)
Definition sentinelFree (s : jsstring) : Prop := Forall (fun c => c <> section_sign) s.

(** [hay.includes(needle)]. *)
Fixpoint contains (needle hay : jsstring) : bool :=
  isPrefix needle hay
  || match hay with
     | [] => false
     | _ :: hay' => contains needle hay'
     end.

(** AppleScript's string literals: a double quote opens and closes one, and
    inside one a backslash takes the next character with it. *)
Inductive lexState : Type := Code | InString | Escaped.

Definition lexStep (st : lexState) (c : N) : lexState :=
  match st with
  | Code => if c =? dq then InString else Code
  | InString =>
      if c =? dq then Code else if c =? backslash then Escaped else InString
  | Escaped => InString
  end.

Definition lexFrom (st : lexState) (s : jsstring) : lexState := fold_left lexStep s st.

(** Every string literal of the script is closed by its end: the least a
    syntactically valid command needs. *)
Definition literalsClosed (script : jsstring) : Prop := lexFrom Code script = Code.

(** A string with neither a double quote nor a backslash. *)
Definition plain (s : jsstring) : Prop := Forall (fun c => c <> dq /\ c <> backslash) s.

(** The partial-update contract in the specification's words: one
    assignment clause per field that is present, in the fixed order. *)
Definition clauseFor {A : Type} (clause : A -> jsstring) (field : option A)
  : list jsstring :=
  match field with
  | Some v => [clause v]
  | None => []
  end.

Definition specUpdateCommands (updates : Updates.t) : list jsstring :=
  clauseFor setName (Updates.name updates)
  ++ clauseFor setBody (Updates.body updates)
  ++ clauseFor setCompleted (Updates.completed updates)
  ++ clauseFor setDueDate (Updates.dueDate updates)
  ++ clauseFor setPriority (Updates.priority updates).

(** A supplied but empty string counts as not supplied. *)
Definition nonEmpty (field : option jsstring) : option jsstring :=
  match field with
  | Some [] => None
  | _ => field
  end.

Definition nonEmptyFields (updates : Updates.t) : Updates.t :=
  {| Updates.name := nonEmpty (Updates.name updates);
     Updates.body := Updates.body updates;
     Updates.completed := Updates.completed updates;
     Updates.dueDate := nonEmpty (Updates.dueDate updates);
     Updates.priority := Updates.priority updates |}.

(** ** Splitting and joining *)

Section SplitJoin.

Variable c0 : N.
Variable sep' : jsstring.
Let sep : jsstring := c0 :: sep'.

Definition prependPiece (p : jsstring) (pieces : list jsstring) : list jsstring :=
  match pieces with
  | [] => [p]
  | q :: qs => (p ++ q) :: qs
  end.

Lemma splitFrom_nonempty (skip : nat) (s : jsstring) : splitFrom sep skip s <> [].
Proof.
  revert skip. induction s as [|c s IH]; intros skip; cbn [splitFrom]; [discriminate|].
  destruct skip as [|k]; [|apply IH].
  destruct (isPrefix sep (c :: s)); [discriminate|].
  specialize (IH 0%nat). destruct (splitFrom sep 0 s); [contradiction|simpl; discriminate].
Qed.

Lemma splitFrom_skip (x rest : jsstring) :
  splitFrom sep (length x) (x ++ rest) = splitFrom sep 0 rest.
Proof. induction x as [|a x IH]; simpl; [reflexivity|exact IH]. Qed.

Lemma isPrefix_app (p rest : jsstring) : isPrefix p (p ++ rest) = true.
Proof.
  induction p as [|a p IH]; simpl; [reflexivity|].
  rewrite N.eqb_refl. exact IH.
Qed.

Lemma split_separator (rest : jsstring) :
  splitFrom sep 0 (sep ++ rest) = [] :: splitFrom sep 0 rest.
Proof.
  unfold sep. change ((c0 :: sep') ++ rest) with (c0 :: (sep' ++ rest)).
  cbn [splitFrom].
  change (c0 :: sep' ++ rest) with ((c0 :: sep') ++ rest).
  rewrite isPrefix_app. f_equal.
  replace (length (c0 :: sep') - 1)%nat with (length sep') by (simpl; lia).
  apply splitFrom_skip.
Qed.

Lemma split_piece (p rest : jsstring) :
  Forall (fun c => c <> c0) p ->
  splitFrom sep 0 (p ++ rest) = prependPiece p (splitFrom sep 0 rest).
Proof.
  pose proof (splitFrom_nonempty 0 rest) as Hne.
  induction 1 as [|a p Ha _ IH]; simpl.
  - destruct (splitFrom sep 0 rest); [contradiction|reflexivity].
  - destruct (N.eqb_spec c0 a) as [->|_]; [contradiction|]. simpl.
    rewrite IH. destruct (splitFrom sep 0 rest); [contradiction|reflexivity].
Qed.

(** Splitting what was joined gives the pieces back, as long as no piece
    holds the first code unit of the separator. *)
Lemma split_join (pieces : list jsstring) :
  pieces <> [] ->
  Forall (Forall (fun c => c <> c0)) pieces ->
  split sep (join sep pieces) = pieces.
Proof.
  intros Hne Hall. unfold split.
  induction Hall as [|p ps Hp Hps IH]; [contradiction|].
  destruct ps as [|q qs].
  - simpl join. rewrite <- (app_nil_r p) at 1.
    rewrite split_piece by assumption. simpl. now rewrite app_nil_r.
  - change (join sep (p :: q :: qs)) with (p ++ sep ++ join sep (q :: qs)).
    rewrite split_piece by assumption.
    rewrite split_separator, IH by discriminate.
    simpl. now rewrite app_nil_r.
Qed.

End SplitJoin.

Lemma split_nonempty (sep s : jsstring) : sep <> [] -> split sep s <> [].
Proof. destruct sep as [|c sep']; [contradiction|]. intros _. apply splitFrom_nonempty. Qed.

Lemma split_join_sentinel (slots : list jsstring) :
  slots <> [] -> Forall sentinelFree slots ->
  split sentinel (join sentinel slots) = slots.
Proof. intros Hne Hall. apply (split_join section_sign); assumption. Qed.

(** ** The reminder decoder *)

Lemma lookup_short {A : Type} (l : list A) (n i : nat) :
  length l = n -> (n <= i)%nat -> l !! i = None.
Proof. intros <- Hle. now apply lookup_ge_None. Qed.

(** C10: the per-line decoding of [getReminders] and the per-line decoding
    of [searchReminders] give the same record for every raw line, and so the
    two decoders give the same sequence for every raw result. *)
Theorem decodeLine_getReminders_searchReminders :
  (forall line : jsstring,
      getReminders_decodeLine line = searchReminders_decodeLine line)
  /\ (forall result : jsstring,
         getReminders_decode result = searchReminders_decode result).
Proof.
  assert (Hline : forall line, getReminders_decodeLine line = searchReminders_decodeLine line)
    by (intros line; reflexivity).
  split; [exact Hline|].
  intros result. unfold getReminders_decode, searchReminders_decode.
  destruct (truthy result); [|reflexivity].
  apply map_ext. intros line. apply Hline.
Qed.

(** A line decodes slot by slot: what each field is for every list of
    parts. *)
Lemma decodeLine_fields (line : jsstring) :
  let parts := split sentinel line in
  let r := getReminders_decodeLine line in
  Reminder.name r = orElse (parts !! 0%nat) []
  /\ Reminder.body r = orUndefined (parts !! 1%nat)
  /\ Reminder.completed r = bool_decide (parts !! 2%nat = Some (lit "true"))
  /\ Reminder.list r = orElse (parts !! 3%nat) []
  /\ Reminder.id r = orElse (parts !! 4%nat) []
  /\ Reminder.creationDate r = orElse (parts !! 5%nat) []
  /\ Reminder.modificationDate r = orElse (parts !! 6%nat) []
  /\ Reminder.priority r = orZero (parseInt (parts !! 7%nat))
  /\ Reminder.dueDate r = orUndefined (parts !! 8%nat).
Proof. cbv zeta. repeat split. Qed.

(** C6: the reminder decoder is total. A successful run always returns a
    decoded sequence, an empty result decodes to the empty sequence, and on a
    line with fewer than 9 sentinel-separated parts every missing slot takes
    its default: the optional [body] and [dueDate] are absent, [completed] is
    false, [priority] is 0, and the other texts are empty. *)
Theorem reminder_decoder_total :
  getReminders_decode [] = []
  /\ (forall (execAsync : jsstring -> execResult) listName completed stdout,
         execAsync (osascriptCommand (getReminders_script listName completed))
           = Exited0 stdout ->
         getReminders execAsync listName completed
           = Returned (getReminders_decode (trim stdout))
         /\ (trim stdout = [] -> getReminders execAsync listName completed = Returned []))
  /\ (forall (line : jsstring) (n : nat),
         length (split sentinel line) = n -> (n < 9)%nat ->
         let r := getReminders_decodeLine line in
         Reminder.dueDate r = None
         /\ ((n < 8)%nat -> Reminder.priority r = Num 0)
         /\ ((n < 7)%nat -> Reminder.modificationDate r = [])
         /\ ((n < 6)%nat -> Reminder.creationDate r = [])
         /\ ((n < 5)%nat -> Reminder.id r = [])
         /\ ((n < 4)%nat -> Reminder.list r = [])
         /\ ((n < 3)%nat -> Reminder.completed r = false)
         /\ ((n < 2)%nat -> Reminder.body r = None)).
Proof.
  split; [reflexivity|]. split.
  - intros execAsync listName completed stdout Hrun.
    unfold getReminders, executeScript. rewrite Hrun. simpl.
    split; [reflexivity|]. intros ->. reflexivity.
  - intros line n Hlen Hn.
    destruct (decodeLine_fields line)
      as (_ & Hbody & Hcompleted & Hlist & Hid & Hcreation & Hmodification
          & Hpriority & Hdue).
    cbv zeta in *.
    repeat split; intros;
      first [ rewrite Hdue | rewrite Hpriority | rewrite Hmodification
            | rewrite Hcreation | rewrite Hid | rewrite Hlist
            | rewrite Hcompleted | rewrite Hbody ];
      rewrite (lookup_short _ n) by (assumption || lia); reflexivity.
Qed.

(** A run whose output is one short line, and the line decoded. *)
Lemma reminder_decoder_total_witness :
  getReminders (fun _ => Exited0 (lit "Buy milk")) None None
    = Returned (getReminders_decode (trim (lit "Buy milk")))
  /\ Reminder.dueDate (getReminders_decodeLine (lit "Buy milk")) = None.
Proof.
  destruct reminder_decoder_total as (_ & Hrun & Hshort). split.
  - apply (Hrun (fun _ => Exited0 (lit "Buy milk")) None None (lit "Buy milk")).
    reflexivity.
  - assert (Hlt : (1 < 9)%nat) by lia.
    exact (proj1 (Hshort (lit "Buy milk") 1%nat eq_refl Hlt)).
Defined.

(** C7: with the slots of a line free of the sentinel, [completed] decodes
    to true exactly when the third slot is the text [true], and to false for
    every other text, the empty text, [0] and [no] among them. *)
Theorem completed_true_exactly (slots : list jsstring) (slot : jsstring) :
  Forall sentinelFree slots ->
  slots !! 2%nat = Some slot ->
  (Reminder.completed (getReminders_decodeLine (join sentinel slots)) = true
     <-> slot = lit "true")
  /\ (Reminder.completed (searchReminders_decodeLine (join sentinel slots)) = true
        <-> slot = lit "true")
  /\ (slot = [] \/ slot = lit "0" \/ slot = lit "no" ->
      Reminder.completed (getReminders_decodeLine (join sentinel slots)) = false).
Proof.
  intros Hfree Hslot.
  assert (Hne : slots <> []) by (intros ->; discriminate).
  assert (Hiff : Reminder.completed (getReminders_decodeLine (join sentinel slots)) = true
                 <-> slot = lit "true").
  { unfold getReminders_decodeLine. cbn [Reminder.completed].
    rewrite split_join_sentinel by assumption. rewrite Hslot.
    rewrite bool_decide_eq_true. split; [now intros [= ->] | now intros ->]. }
  split; [exact Hiff|]. split; [exact Hiff|].
  intros Hcase. apply not_true_is_false. rewrite Hiff.
  destruct Hcase as [-> | [-> | ->]]; discriminate.
Qed.

Lemma completed_true_exactly_witness :
  Reminder.completed
    (getReminders_decodeLine
       (join sentinel [lit "Buy milk"; []; lit "true"; lit "Personal"; lit "id1"]))
    = true
  <-> lit "true" = lit "true".
Proof.
  apply (completed_true_exactly
           [lit "Buy milk"; []; lit "true"; lit "Personal"; lit "id1"] (lit "true")).
  - repeat constructor; discriminate.
  - reflexivity.
Defined.

(** C9, as the specification states it, fails: a line with no body capture
    decodes with an absent body, not with the empty text. *)
Lemma missing_body_is_not_empty_string :
  split sentinel (lit "Buy milk") !! 1%nat = None
  /\ Reminder.body (getReminders_decodeLine (lit "Buy milk")) <> Some [].
Proof. split; [reflexivity | discriminate]. Qed.

(** C9, amended: a body capture that is missing or empty decodes to an
    absent body, in both decoders; a body that is present is never empty. *)
Theorem missing_body_is_absent (line : jsstring) :
  (split sentinel line !! 1%nat = None \/ split sentinel line !! 1%nat = Some [] ->
   Reminder.body (getReminders_decodeLine line) = None
   /\ Reminder.body (searchReminders_decodeLine line) = None)
  /\ (forall b, Reminder.body (getReminders_decodeLine line) = Some b -> b <> []).
Proof.
  change (searchReminders_decodeLine line) with (getReminders_decodeLine line).
  destruct (decodeLine_fields line) as (_ & Hbody & _). cbv zeta in Hbody.
  rewrite Hbody. split.
  - intros [-> | ->]; split; reflexivity.
  - intros b. destruct (split sentinel line !! 1%nat) as [[|c s]|]; simpl;
      intros [= <-]. discriminate.
Qed.

Lemma missing_body_is_absent_witness :
  Reminder.body (getReminders_decodeLine (lit "Buy milk")) = None
  /\ Reminder.body (searchReminders_decodeLine (lit "Buy milk")) = None.
Proof.
  apply (proj1 (missing_body_is_absent (lit "Buy milk"))). left. reflexivity.
Defined.

(** ** Integer parsing *)

Definition isDigit (c : N) : bool := (48 <=? c) && (c <=? 57).

Definition digitOf (c : N) : Z := (Z.of_N c - 48)%Z.

Lemma isDigit_cases (c : N) :
  isDigit c = true ->
  c = 48 \/ c = 49 \/ c = 50 \/ c = 51 \/ c = 52 \/ c = 53 \/ c = 54 \/ c = 55
  \/ c = 56 \/ c = 57.
Proof.
  unfold isDigit. rewrite andb_true_iff, !N.leb_le. lia.
Qed.

Ltac digit_cases c H :=
  apply isDigit_cases in H;
  repeat (destruct H as [H | H]; [subst c | ]); [.. | subst c].

Lemma digit_radixDigit (c : N) :
  isDigit c = true -> radixDigit 10 c = Some (digitOf c).
Proof. intros H. digit_cases c H; reflexivity. Qed.

Lemma digit_not_space (c : N) : isDigit c = true -> isWhiteSpace c = false.
Proof. intros H. digit_cases c H; reflexivity. Qed.

Lemma digit_not_sign (c : N) : isDigit c = true -> (c =? 43) || (c =? 45) = false.
Proof. intros H. digit_cases c H; reflexivity. Qed.

Lemma digit_not_x (c : N) : isDigit c = true -> (c =? 120) || (c =? 88) = false.
Proof. intros H. digit_cases c H; reflexivity. Qed.

Lemma digitsPrefix_digits (s : jsstring) :
  forallb isDigit s = true -> digitsPrefix 10 s = map digitOf s.
Proof.
  induction s as [|c s IH]; simpl; [reflexivity|].
  rewrite andb_true_iff. intros [Hc Hs].
  rewrite (digit_radixDigit c Hc). now rewrite IH.
Qed.

Lemma stripRadixPrefix_digits (s : jsstring) :
  forallb isDigit s = true -> stripRadixPrefix s = (10%Z, s).
Proof.
  destruct s as [|c0 [|c1 t]]; [reflexivity..|]. simpl.
  rewrite !andb_true_iff. intros (_ & Hc1 & _).
  rewrite (digit_not_x c1 Hc1), andb_false_r. reflexivity.
Qed.

Lemma digitsPrefix_nonempty (s : jsstring) :
  s <> [] -> forallb isDigit s = true -> digitsPrefix 10 s <> [].
Proof.
  intros Hne Hall. rewrite digitsPrefix_digits by assumption.
  destruct s; [contradiction | discriminate].
Qed.

(** A text made of decimal digits only parses to the number they write. *)
Lemma parseInt_digits (s : jsstring) :
  s <> [] -> forallb isDigit s = true ->
  parseInt (Some s) = toNumber (mathInt 10 (map digitOf s)).
Proof.
  intros Hne Hall.
  assert (Htrim : trimStart s = s).
  { destruct s as [|c s]; [reflexivity|]. simpl in Hall |- *.
    apply andb_true_iff in Hall as [Hc _]. now rewrite (digit_not_space c Hc). }
  assert (Hsign : stripSign s = s /\ signOf s = 1%Z).
  { destruct s as [|c s]; [contradiction|]. simpl in Hall |- *.
    apply andb_true_iff in Hall as [Hc _].
    pose proof (digit_not_sign c Hc) as Hs. rewrite Hs.
    apply orb_false_iff in Hs as [_ ->]. now split. }
  destruct Hsign as [Hstrip Hone].
  unfold parseInt. rewrite Htrim, Hstrip, Hone, (stripRadixPrefix_digits s Hall).
  pose proof (digitsPrefix_nonempty s Hne Hall) as Hds.
  rewrite <- (digitsPrefix_digits s Hall).
  destruct (digitsPrefix 10 s); [contradiction|]. now rewrite Z.mul_1_l.
Qed.

Lemma parseInt_minus_digits (s : jsstring) :
  s <> [] -> forallb isDigit s = true ->
  parseInt (Some (45 :: s)) = toNumber (- mathInt 10 (map digitOf s)).
Proof.
  intros Hne Hall. unfold parseInt.
  change (trimStart (45 :: s)) with (45 :: s).
  change (stripSign (45 :: s)) with s. change (signOf (45 :: s)) with (-1)%Z.
  rewrite (stripRadixPrefix_digits s Hall).
  pose proof (digitsPrefix_nonempty s Hne Hall) as Hds.
  rewrite <- (digitsPrefix_digits s Hall).
  destruct (digitsPrefix 10 s); [contradiction|]. f_equal; lia.
Qed.

(** A text that starts with neither white space, a sign nor a digit does
    not parse. *)
Lemma parseInt_no_digit (c : N) (s : jsstring) :
  isWhiteSpace c = false -> (c =? 43) || (c =? 45) = false -> isDigit c = false ->
  parseInt (Some (c :: s)) = NaN.
Proof.
  intros Hspace Hsign Hdigit. unfold parseInt. cbn [trimStart]. rewrite Hspace.
  cbn [stripSign]. rewrite Hsign.
  assert (Hzero : (c =? 48) = false).
  { destruct (N.eqb_spec c 48) as [->|]; [discriminate Hdigit | reflexivity]. }
  assert (Hten : radixDigit 10 c = None).
  { unfold radixDigit, digitValue. fold (isDigit c). rewrite Hdigit.
    destruct ((97 <=? c) && (c <=? 122)) eqn:Hlower.
    - apply andb_true_iff in Hlower as [Hlo _]. apply N.leb_le in Hlo.
      destruct (Z.ltb_spec (Z.of_N c - 87) 10); [lia | reflexivity].
    - destruct ((65 <=? c) && (c <=? 90)) eqn:Hupper; [|reflexivity].
      apply andb_true_iff in Hupper as [Hlo _]. apply N.leb_le in Hlo.
      destruct (Z.ltb_spec (Z.of_N c - 55) 10); [|reflexivity].
      unfold isDigit in Hdigit. apply andb_false_iff in Hdigit.
      rewrite N.leb_gt, N.leb_gt in Hdigit. lia. }
  assert (Hprefix : stripRadixPrefix (c :: s) = (10%Z, c :: s)).
  { destruct s as [|c1 t]; [reflexivity|]. simpl. now rewrite Hzero. }
  rewrite Hprefix. cbn [digitsPrefix]. now rewrite Hten.
Qed.

(** The decimal digits of the standard printer, as code units. *)
Lemma string_of_uint_digits (d : Decimal.uint) :
  forallb isDigit (lit (NilEmpty.string_of_uint d)) = true.
Proof. induction d; simpl; auto. Qed.

Lemma string_of_uint_value_acc (d : Decimal.uint) (acc : positive) :
  fold_left (fun a x => (a * 10 + x)%Z)
            (map digitOf (lit (NilEmpty.string_of_uint d))) (Z.pos acc)
  = Z.pos (Pos.of_uint_acc d acc).
Proof.
  revert acc.
  induction d; intros acc; cbn [NilEmpty.string_of_uint lit map fold_left Pos.of_uint_acc];
    [reflexivity | rewrite <- IHd; f_equal; unfold digitOf; cbn; lia ..].
Qed.

Lemma string_of_uint_value (d : Decimal.uint) :
  mathInt 10 (map digitOf (lit (NilEmpty.string_of_uint d))) = Z.of_N (Pos.of_uint d).
Proof.
  unfold mathInt.
  induction d; cbn [NilEmpty.string_of_uint lit map fold_left Pos.of_uint];
    [reflexivity | exact IHd | ..];
    match goal with
    | |- _ = Z.of_N (N.pos (Pos.of_uint_acc _ ?p)) =>
        change (Z.of_N (N.pos (Pos.of_uint_acc d p))) with (Z.pos (Pos.of_uint_acc d p));
        rewrite <- (string_of_uint_value_acc d p); reflexivity
    end.
Qed.

(** Parsing the decimal text of an integer gives the integer back, as a
    Number. *)
Lemma parseInt_numberToString (z : Z) :
  parseInt (Some (numberToString (Num z))) = toNumber z.
Proof.
  assert (Hpos : forall p,
             lit (NilZero.string_of_uint (Pos.to_uint p))
             = lit (NilEmpty.string_of_uint (Pos.to_uint p))
             /\ lit (NilEmpty.string_of_uint (Pos.to_uint p)) <> []
             /\ mathInt 10 (map digitOf (lit (NilEmpty.string_of_uint (Pos.to_uint p))))
                = Z.pos p).
  { intros p. pose proof (DecimalPos.Unsigned.to_uint_nonnil p) as Hnil.
    pose proof (string_of_uint_value (Pos.to_uint p)) as Hval.
    rewrite DecimalPos.Unsigned.of_to in Hval.
    destruct (Pos.to_uint p); [contradiction | repeat split; try discriminate; exact Hval ..]. }
  destruct z as [|p|p]; [reflexivity | |]; destruct (Hpos p) as (Hzero & Hne & Hval);
    unfold numberToString, Z.to_int, NilZero.string_of_int.
  - rewrite Hzero, parseInt_digits by (assumption || apply string_of_uint_digits).
    now rewrite Hval.
  - cbn [lit]. rewrite Hzero.
    change (N_of_ascii "-") with 45.
    rewrite parseInt_minus_digits by (assumption || apply string_of_uint_digits).
    now rewrite Hval.
Qed.

Lemma toNumber_exact (z : Z) : (Z.abs z < 2 ^ 53)%Z -> toNumber z = Num z.
Proof.
  intros H. unfold toNumber. destruct (Z.ltb_spec (Z.abs z) (2 ^ 53)); [reflexivity | lia].
Qed.

Lemma orZero_Num (z : Z) : orZero (Num z) = Num z.
Proof.
  unfold orZero, number_truthy.
  destruct (Z.eqb_spec z 0) as [->|]; reflexivity.
Qed.

Lemma orZero_not_NaN (n : number) : n <> NaN -> orZero n = n.
Proof.
  destruct n as [|z|b]; [contradiction | intros _; apply orZero_Num | reflexivity].
Qed.

(** The priority texts the specification names, with what each decodes
    to. *)
Definition priorityExamples : list (jsstring * Z) :=
  [ ([], 0%Z); (lit "0", 0%Z); (lit "1", 1%Z); (lit "5", 5%Z); (lit "9", 9%Z);
    (lit "3", 3%Z); (lit "abc", 0%Z) ].

(** C8: with the slots of a line free of the sentinel, [priority] decodes
    to 0 when the eighth slot is absent, empty or not parsable as an integer,
    and to the parsed integer otherwise: the decimal text of an integer below
    2^53 in magnitude decodes to that integer. The seven texts the
    specification lists decode as it says. *)
Theorem priority_decoding (slots : list jsstring) :
  slots <> [] -> Forall sentinelFree slots ->
  let r := getReminders_decodeLine (join sentinel slots) in
  (slots !! 7%nat = None \/ slots !! 7%nat = Some [] -> Reminder.priority r = Num 0)
  /\ (forall s, slots !! 7%nat = Some s -> parseInt (Some s) = NaN ->
                Reminder.priority r = Num 0)
  /\ (forall s, slots !! 7%nat = Some s -> parseInt (Some s) <> NaN ->
                Reminder.priority r = parseInt (Some s))
  /\ (forall z, (Z.abs z < 2 ^ 53)%Z ->
                slots !! 7%nat = Some (numberToString (Num z)) ->
                Reminder.priority r = Num z)
  /\ (forall s z, In (s, z) priorityExamples -> slots !! 7%nat = Some s ->
                  Reminder.priority r = Num z).
Proof.
  intros Hne Hfree r.
  assert (Hr : Reminder.priority r = orZero (parseInt (slots !! 7%nat))).
  { subst r. destruct (decodeLine_fields (join sentinel slots)) as (_ & _ & _ & _ & _ & _ & _ & H & _).
    cbv zeta in H. rewrite H. now rewrite split_join_sentinel. }
  rewrite Hr. repeat split.
  - intros [-> | ->]; reflexivity.
  - intros s -> ->. reflexivity.
  - intros s -> Hs. now apply orZero_not_NaN.
  - intros z Hz ->. now rewrite parseInt_numberToString, toNumber_exact, orZero_Num.
  - intros s z Hin ->. simpl in Hin.
    repeat (destruct Hin as [[= <- <-] | Hin]; [reflexivity|]). contradiction.
Qed.

Lemma priority_decoding_witness :
  Reminder.priority
    (getReminders_decodeLine
       (join sentinel
             [lit "Buy milk"; []; lit "false"; lit "Personal"; lit "id1";
              lit "d1"; lit "d2"; lit "5"; []]))
  = Num 5.
Proof.
  refine (proj1 (proj2 (proj2 (proj2
            (priority_decoding
               [lit "Buy milk"; []; lit "false"; lit "Personal"; lit "id1";
                lit "d1"; lit "d2"; lit "5"; []] _ _)))) 5%Z _ _).
  - discriminate.
  - repeat constructor; discriminate.
  - reflexivity.
  - reflexivity.
Defined.

(** ** The list decoder *)

Lemma join_Forall (P : N -> Prop) (sep : jsstring) (pieces : list jsstring) :
  Forall P sep -> Forall (Forall P) pieces -> Forall P (join sep pieces).
Proof.
  intros Hsep Hall. induction Hall as [|p ps Hp Hps IH]; [constructor|].
  destruct ps as [|q qs]; [exact Hp|].
  change (join sep (p :: q :: qs)) with (p ++ sep ++ join sep (q :: qs)).
  rewrite !Forall_app. auto.
Qed.

Lemma orElse_trim (x : option jsstring) :
  orElse (trim <$> x) [] = match x with Some s => trim s | None => [] end.
Proof. destruct x as [s|]; [|reflexivity]. simpl. now destruct (trim s). Qed.

(** A name or an id that holds neither a comma nor a vertical bar. *)
Definition listItem (s : jsstring) : Prop := Forall (fun c => c <> 44 /\ c <> 124) s.

(** C3, as the specification states it, fails: two names and one id decode
    to a result, the second list with an empty id, and no failure is
    raised. *)
Lemma mismatched_lengths_decode :
  length (split (lit ", ") (lit "A, B")) <> length (split (lit ", ") (lit "id1"))
  /\ decodeLists (lit "A, B|||id1")
     = Returned [RemindersList.mk (lit "A") (lit "id1"); RemindersList.mk (lit "B") []].
Proof. split; [discriminate | reflexivity]. Qed.

(** C3, amended: the result is split on the group separator, the first two
    groups are split on [", "], and the name at index [i], trimmed, is paired
    with the id at index [i], trimmed, or with the empty text when there is no
    such id; ids beyond the names are dropped. Decoding fails, with a type
    error, exactly when the result holds no group separator. Names and ids
    without commas and bars, written in the group-separator format, decode
    pairwise. *)
Theorem decodeLists_pairs_by_position :
  (forall (result namesStr idsStr : jsstring) (rest : list jsstring),
      split groupSeparator result = namesStr :: idsStr :: rest ->
      let names := split (lit ", ") namesStr in
      let ids := split (lit ", ") idsStr in
      exists lists,
        decodeLists result = Returned lists
        /\ length lists = length names
        /\ forall (i : nat) (name : jsstring),
             names !! i = Some name ->
             lists !! i
             = Some (RemindersList.mk (trim name)
                       (match ids !! i with Some x => trim x | None => [] end)))
  /\ (forall (result namesStr : jsstring),
         split groupSeparator result = [namesStr] ->
         decodeLists result = Thrown TypeError)
  /\ (forall (names ids : list jsstring),
         names <> [] -> ids <> [] -> Forall listItem names -> Forall listItem ids ->
         decodeLists (join (lit ", ") names ++ groupSeparator ++ join (lit ", ") ids)
         = Returned
             (imap (fun i name =>
                      RemindersList.mk (trim name)
                        (match ids !! i with Some x => trim x | None => [] end))
                   names)).
Proof.
  assert (Hdecode : forall result namesStr idsStr rest,
             split groupSeparator result = namesStr :: idsStr :: rest ->
             decodeLists result
             = Returned
                 (imap (fun i name =>
                          RemindersList.mk (trim name)
                            (match split (lit ", ") idsStr !! i with
                             | Some x => trim x
                             | None => []
                             end))
                       (split (lit ", ") namesStr))).
  { intros result namesStr idsStr rest Hsplit. unfold decodeLists. rewrite Hsplit.
    f_equal. apply imap_ext. intros i name _. simpl. now rewrite orElse_trim. }
  split; [|split].
  - intros result namesStr idsStr rest Hsplit names ids.
    eexists. split; [apply (Hdecode _ _ _ _ Hsplit)|]. split.
    + apply length_imap.
    + intros i name Hname. rewrite list_lookup_imap. fold names. now rewrite Hname.
  - intros result namesStr Hsplit. unfold decodeLists. now rewrite Hsplit.
  - intros names ids Hnames Hids Hn Hi.
    assert (Hbar : forall l, Forall listItem l -> Forall (Forall (fun c => c <> 124)) l).
    { intros l Hl. eapply Forall_impl; [exact Hl|]. intros s Hs.
      eapply Forall_impl; [exact Hs|]. simpl. tauto. }
    assert (Hcomma : forall l, Forall listItem l -> Forall (Forall (fun c => c <> 44)) l).
    { intros l Hl. eapply Forall_impl; [exact Hl|]. intros s Hs.
      eapply Forall_impl; [exact Hs|]. simpl. tauto. }
    assert (Hsplit : split groupSeparator
                       (join (lit ", ") names ++ groupSeparator ++ join (lit ", ") ids)
                     = [join (lit ", ") names; join (lit ", ") ids]).
    { apply (split_join 124 (lit "||") [join (lit ", ") names; join (lit ", ") ids]);
        [discriminate|].
      repeat constructor; apply join_Forall; auto;
        repeat constructor; discriminate. }
    rewrite (Hdecode _ _ _ _ Hsplit).
    change (lit ", ") with (44 :: lit " ").
    rewrite !split_join by auto. reflexivity.
Qed.

(** The lists of the specification's example. *)
Lemma decodeLists_pairs_by_position_witness :
  decodeLists (lit "A, B, C|||id1, id2, id3")
  = Returned [RemindersList.mk (lit "A") (lit "id1");
              RemindersList.mk (lit "B") (lit "id2");
              RemindersList.mk (lit "C") (lit "id3")].
Proof.
  refine (proj2 (proj2 decodeLists_pairs_by_position)
            [lit "A"; lit "B"; lit "C"] [lit "id1"; lit "id2"; lit "id3"] _ _ _ _);
    try discriminate; repeat constructor; discriminate.
Defined.

(** ** The bridge to the interpreter *)

(** The failure [executeScript] raises for a rejection that prints as
    [diagnostic]. *)
Definition executionFailed (diagnostic : jsstring) : exn :=
  Error (lit "AppleScript execution failed: " ++ diagnostic).

Lemma bind_Thrown {A B : Type} (m : outcome A) (k : A -> outcome B) (e : exn) :
  m = Thrown e -> bind m k = Thrown e.
Proof. now intros ->. Qed.

Lemma trimStart_decompose (s : jsstring) :
  exists w, forallb isWhiteSpace w = true /\ s = w ++ trimStart s.
Proof.
  induction s as [|c s (w & Hw & Hs)]; [now exists []|].
  simpl. destruct (isWhiteSpace c) eqn:Hc.
  - exists (c :: w). simpl. rewrite Hc, Hw. split; [reflexivity | now f_equal].
  - now exists [].
Qed.

Lemma trimStart_head (s : jsstring) (c : N) (t : jsstring) :
  trimStart s = c :: t -> isWhiteSpace c = false.
Proof.
  induction s as [|x s IH]; simpl; [discriminate|].
  destruct (isWhiteSpace x) eqn:Hx; [exact IH|]. now intros [= <- _].
Qed.

Lemma trimEnd_decompose (s : jsstring) :
  exists w, forallb isWhiteSpace w = true /\ s = trimEnd s ++ w.
Proof.
  destruct (trimStart_decompose (rev s)) as (w & Hw & Hs).
  exists (rev w). split.
  - rewrite forallb_forall in *. intros x Hx. apply Hw. now apply in_rev.
  - unfold trimEnd. rewrite <- rev_app_distr, <- Hs. symmetry. apply rev_involutive.
Qed.

(** What [trim] removes is white space, and what it leaves neither starts
    nor ends with white space. *)
Lemma trim_decompose (s : jsstring) :
  exists leading trailing,
    forallb isWhiteSpace leading = true /\ forallb isWhiteSpace trailing = true
    /\ s = leading ++ trim s ++ trailing
    /\ (forall c t, trim s = c :: t -> isWhiteSpace c = false)
    /\ (forall c t, trim s = t ++ [c] -> isWhiteSpace c = false).
Proof.
  destruct (trimStart_decompose s) as (w1 & Hw1 & Hs).
  destruct (trimEnd_decompose (trimStart s)) as (w2 & Hw2 & Hu).
  exists w1, w2. repeat split; try assumption.
  - unfold trim. now rewrite <- Hu.
  - intros c t Hc. unfold trim in Hc. rewrite Hc in Hu.
    now apply (trimStart_head s c (t ++ w2)).
  - intros c t Hc. unfold trim, trimEnd in Hc.
    apply (f_equal (@rev N)) in Hc. rewrite rev_involutive, rev_app_distr in Hc.
    now apply (trimStart_head _ _ _ Hc).
Qed.

(** C4: when the subprocess cannot be spawned or exits with a non-zero
    status, [executeScript] and each of the six operations raise the one
    failure that carries the diagnostic text, and return no result; when it
    succeeds, [executeScript] returns the standard output without its
    surrounding white space: the output is the returned text between two
    stretches of white space, and the returned text neither starts nor ends
    with white space. *)
Theorem invocation_failure_surfaces (execAsync : jsstring -> execResult)
    (diagnostic : jsstring) :
  (forall script,
      execAsync (osascriptCommand script) = Rejected diagnostic ->
      executeScript execAsync script = Thrown (executionFailed diagnostic))
  /\ (execAsync (osascriptCommand getReminderLists_script) = Rejected diagnostic ->
      getReminderLists execAsync = Thrown (executionFailed diagnostic))
  /\ (forall listName completed,
         execAsync (osascriptCommand (getReminders_script listName completed))
           = Rejected diagnostic ->
         getReminders execAsync listName completed = Thrown (executionFailed diagnostic))
  /\ (forall name listName body dueDate priority,
         execAsync
           (osascriptCommand (createReminder_script name listName body dueDate priority))
           = Rejected diagnostic ->
         createReminder execAsync name listName body dueDate priority
           = Thrown (executionFailed diagnostic))
  /\ (forall reminderId updates,
         execAsync (osascriptCommand (updateReminder_script reminderId updates))
           = Rejected diagnostic ->
         updateReminder execAsync reminderId updates = Thrown (executionFailed diagnostic))
  /\ (forall reminderId,
         execAsync (osascriptCommand (deleteReminder_script reminderId))
           = Rejected diagnostic ->
         deleteReminder execAsync reminderId = Thrown (executionFailed diagnostic))
  /\ (forall searchTerm,
         execAsync (osascriptCommand (searchReminders_script searchTerm))
           = Rejected diagnostic ->
         searchReminders execAsync searchTerm = Thrown (executionFailed diagnostic))
  /\ (forall script stdout,
         execAsync (osascriptCommand script) = Exited0 stdout ->
         exists out leading trailing,
           executeScript execAsync script = Returned out
           /\ stdout = leading ++ out ++ trailing
           /\ forallb isWhiteSpace leading = true
           /\ forallb isWhiteSpace trailing = true
           /\ (forall c t, out = c :: t -> isWhiteSpace c = false)
           /\ (forall c t, out = t ++ [c] -> isWhiteSpace c = false)).
Proof.
  assert (Hexec : forall script,
             execAsync (osascriptCommand script) = Rejected diagnostic ->
             executeScript execAsync script = Thrown (executionFailed diagnostic)).
  { intros script H. unfold executeScript. now rewrite H. }
  split; [exact Hexec|].
  split; [|split; [|split; [|split; [|split; [|split]]]]]; intros;
    try (unfold getReminderLists, getReminders, createReminder, updateReminder,
           deleteReminder, searchReminders;
         first [ now apply Hexec | apply bind_Thrown; now apply Hexec ]).
  match goal with H : execAsync _ = Exited0 ?stdout |- _ =>
    destruct (trim_decompose stdout) as (w1 & w2 & Hw1 & Hw2 & Hs & Hhead & Hlast);
    exists (trim stdout), w1, w2; unfold executeScript; rewrite H
  end.
  auto 10.
Qed.

(** A host that refuses every command, and one that answers. *)
Lemma invocation_failure_surfaces_witness :
  getReminders (fun _ => Rejected (lit "Not authorized (-1743)")) None None
  = Thrown (executionFailed (lit "Not authorized (-1743)"))
  /\ exists out leading trailing,
       executeScript (fun _ => Exited0 (lit " id-1" ++ [lf])) (deleteReminder_script (lit "x"))
       = Returned out
       /\ lit " id-1" ++ [lf] = leading ++ out ++ trailing
       /\ forallb isWhiteSpace leading = true
       /\ forallb isWhiteSpace trailing = true
       /\ (forall c t, out = c :: t -> isWhiteSpace c = false)
       /\ (forall c t, out = t ++ [c] -> isWhiteSpace c = false).
Proof.
  split.
  - refine (proj1 (proj2 (proj2
              (invocation_failure_surfaces
                 (fun _ => Rejected (lit "Not authorized (-1743)"))
                 (lit "Not authorized (-1743)")))) None None _).
    reflexivity.
  - refine (proj2 (proj2 (proj2 (proj2 (proj2 (proj2 (proj2
              (invocation_failure_surfaces
                 (fun _ => Exited0 (lit " id-1" ++ [lf])) [])))))))
              (deleteReminder_script (lit "x")) (lit " id-1" ++ [lf]) _).
    reflexivity.
Defined.

(** ** The update command *)

Lemma updateCommands_nonEmptyFields (updates : Updates.t) :
  updateCommands updates = specUpdateCommands (nonEmptyFields updates).
Proof.
  destruct updates as [[[|c s]|] [body|] [completed|] [[|c' s']|] [priority|]];
    reflexivity.
Qed.

(** C2, as the specification states it, fails: a name that is present but
    empty gets no assignment clause. *)
Lemma empty_name_gets_no_clause :
  let updates := Updates.mk (Some []) None None None None in
  updateCommands updates = []
  /\ specUpdateCommands updates = [setName []].
Proof. split; reflexivity. Qed.

(** C2, amended: [updateReminder] emits one assignment clause per field
    that is present, in the order name, body, completed, dueDate, priority,
    and none for an absent field, where a name or a due date counts as present
    only when it is not empty; the clauses are placed one per line after the
    line that resolves the reminder. An update of [completed] alone emits the
    completed clause and no other. *)
Theorem updateReminder_partial_update :
  (forall updates, updateCommands updates = specUpdateCommands (nonEmptyFields updates))
  /\ (forall updates,
         Updates.name updates <> Some [] -> Updates.dueDate updates <> Some [] ->
         updateCommands updates = specUpdateCommands updates)
  /\ (forall reminderId updates,
         updateReminder_script reminderId updates
         = tellReminders
           ++ indent 8 ++ lit "set targetReminder to reminder id " ++ quoted reminderId
           ++ indent 8 ++ join (indent 8) (specUpdateCommands (nonEmptyFields updates))
           ++ endTell)
  /\ (forall completed,
         updateCommands (Updates.mk None None (Some completed) None None)
         = [lit "set completed of targetReminder to " ++ boolToString completed]).
Proof.
  pose proof updateCommands_nonEmptyFields as Hall.
  split; [exact Hall|]. split; [|split].
  - intros updates Hname Hdue. rewrite Hall. f_equal.
    destruct updates as [[[|c s]|] body completed [[|c' s']|] priority];
      simpl in *; first [ reflexivity | contradiction ].
  - intros reminderId updates. unfold updateReminder_script. now rewrite Hall.
  - reflexivity.
Qed.

Lemma updateReminder_partial_update_witness :
  updateCommands (Updates.mk (Some (lit "Call mum")) None (Some true) None (Some (Num 1)))
  = [setName (lit "Call mum"); setCompleted true; setPriority (Num 1)].
Proof.
  refine (proj1 (proj2 updateReminder_partial_update)
            (Updates.mk (Some (lit "Call mum")) None (Some true) None (Some (Num 1)))
            _ _); discriminate.
Defined.

(** ** Occurrences of a text in a script *)

Lemma contains_app (needle before after : jsstring) :
  contains needle (before ++ needle ++ after) = true.
Proof.
  assert (Hhead : forall hay, isPrefix needle hay = true -> contains needle hay = true).
  { intros [|c hay] H; simpl; now rewrite H. }
  induction before as [|c before IH].
  - apply Hhead. exact (isPrefix_app needle after).
  - change ((c :: before) ++ needle ++ after) with (c :: (before ++ needle ++ after)).
    cbn [contains]. rewrite IH. apply orb_true_r.
Qed.

Lemma contains_prefix (needle rest : jsstring) : contains needle (needle ++ rest) = true.
Proof. apply (contains_app needle [] rest). Qed.

Lemma contains_prefix2 (a b rest : jsstring) : contains (a ++ b) (a ++ b ++ rest) = true.
Proof. rewrite app_assoc. apply contains_prefix. Qed.

Lemma contains_skip (needle x rest : jsstring) :
  contains needle rest = true -> contains needle (x ++ rest) = true.
Proof.
  intros H. induction x as [|c x IH]; [exact H|].
  change ((c :: x) ++ rest) with (c :: (x ++ rest)). cbn [contains].
  rewrite IH. apply orb_true_r.
Qed.

Lemma isPrefix_app_l (needle a b : jsstring) :
  isPrefix needle a = true -> isPrefix needle (a ++ b) = true.
Proof.
  revert a. induction needle as [|c needle IH]; intros a; [reflexivity|].
  destruct a as [|x a]; [discriminate|]. cbn [isPrefix app].
  rewrite !andb_true_iff. intros [Hc H]. split; [exact Hc | now apply IH].
Qed.

Lemma contains_app_l (needle a b : jsstring) :
  contains needle a = true -> contains needle (a ++ b) = true.
Proof.
  induction a as [|c a IH].
  - destruct needle; [|discriminate]. intros _. now destruct b.
  - change ((c :: a) ++ b) with (c :: (a ++ b)). cbn [contains].
    rewrite !orb_true_iff. intros [H | H]; [left | right; now apply IH].
    now apply (isPrefix_app_l needle (c :: a) b).
Qed.

Lemma contains_join (sep p : jsstring) (pieces : list jsstring) :
  In p pieces -> contains p (join sep pieces) = true.
Proof.
  induction pieces as [|q qs IH]; [contradiction|].
  destruct qs as [|r rs].
  - intros [-> | []]. cbn [join]. rewrite <- (app_nil_r p) at 2. apply contains_prefix.
  - change (join sep (q :: r :: rs)) with (q ++ sep ++ join sep (r :: rs)).
    intros [-> | H]; [apply contains_prefix|].
    apply contains_skip, contains_skip. now apply IH.
Qed.

(** Finds a text in a script by walking over the pieces of the script. *)
Ltac found :=
  repeat match goal with
         | |- contains (?a ++ ?b) (?a ++ ?b ++ _) = true => apply contains_prefix2
         | |- contains ?n (?n ++ _) = true => apply contains_prefix
         | |- contains _ (_ ++ _) = true => apply contains_skip
         end.

(** ** The create command *)

(** A supplied priority that is zero (or not a number) counts as not
    supplied. *)
Definition nonZero (priority : option number) : option number :=
  match priority with
  | Some p => if number_truthy p then Some p else None
  | None => None
  end.

(** C5, as the specification states it, fails: a body that is supplied but
    empty gets no body clause; the command is the one built with no optional
    argument at all. *)
Lemma empty_body_gets_no_clause :
  let supplied := Some [] in
  is_Some supplied
  /\ createReminder_script (lit "Buy milk") (lit "Personal") supplied None None
     = createReminder_script (lit "Buy milk") (lit "Personal") None None None
  /\ contains (lit "set body of newReminder")
       (createReminder_script (lit "Buy milk") (lit "Personal") supplied None None)
     = false.
Proof. split; [eexists; reflexivity | split; reflexivity]. Qed.

(** A clause that is in the script exactly when its value is there. *)
Definition optionalClause {A : Type} (clause : A -> jsstring) (value : option A)
  : jsstring :=
  match value with
  | Some v => clause v
  | None => []
  end.

(** C5, amended: the command of [createReminder] holds a body clause
    exactly when a non-empty body is supplied, a due date clause exactly when
    a non-empty due date is supplied, and a priority clause exactly when a
    non-zero priority is supplied, each on its own line after the line that
    sets the name: the whole script is the fixed text with those clauses and
    no other, a supplied clause is found in it as written, and an empty body,
    an empty due date or a zero priority builds the command of an omitted
    one. The operation returns the output of the run without its surrounding
    white space, which the script makes the id of the new reminder. The
    command for "Buy milk" in "Personal" with no optional argument holds none
    of the three clauses. *)
Theorem createReminder_optional_clauses :
  (forall name listName body dueDate priority,
      createReminder_script name listName body dueDate priority
      = tellReminders
        ++ indent 8 ++ lit "set targetList to list " ++ quoted listName
        ++ indent 8 ++ lit "set newReminder to make new reminder in targetList"
        ++ indent 8 ++ lit "set name of newReminder to " ++ quoted name
        ++ indent 8
        ++ optionalClause (fun b => lit "set body of newReminder to " ++ quoted b)
             (nonEmpty body)
        ++ indent 8
        ++ optionalClause (fun d => lit "set due date of newReminder to date " ++ quoted d)
             (nonEmpty dueDate)
        ++ indent 8
        ++ optionalClause (fun p => lit "set priority of newReminder to " ++ numberToString p)
             (nonZero priority)
        ++ indent 8 ++ lit "return id of newReminder"
        ++ endTell)
  /\ (forall name listName body dueDate priority,
         let script := createReminder_script name listName body dueDate priority in
         (forall b, body = Some b -> b <> [] ->
                    contains (lit "set body of newReminder to " ++ quoted b) script = true)
         /\ (forall d, dueDate = Some d -> d <> [] ->
                       contains (lit "set due date of newReminder to date " ++ quoted d)
                         script = true)
         /\ (forall p, priority = Some p -> number_truthy p = true ->
                       contains (lit "set priority of newReminder to " ++ numberToString p)
                         script = true))
  /\ (forall name listName body dueDate priority,
         createReminder_script name listName body dueDate priority
         = createReminder_script name listName
             (nonEmpty body) (nonEmpty dueDate) (nonZero priority))
  /\ (let script := createReminder_script (lit "Buy milk") (lit "Personal") None None None in
      contains (lit "set body of newReminder") script = false
      /\ contains (lit "set due date of newReminder") script = false
      /\ contains (lit "set priority of newReminder") script = false
      /\ contains (lit "return id of newReminder") script = true)
  /\ (forall (execAsync : jsstring -> execResult) name listName body dueDate priority stdout,
         execAsync
           (osascriptCommand (createReminder_script name listName body dueDate priority))
           = Exited0 stdout ->
         exists id leading trailing,
           createReminder execAsync name listName body dueDate priority = Returned id
           /\ stdout = leading ++ id ++ trailing
           /\ forallb isWhiteSpace leading = true
           /\ forallb isWhiteSpace trailing = true
           /\ (forall c t, id = c :: t -> isWhiteSpace c = false)
           /\ (forall c t, id = t ++ [c] -> isWhiteSpace c = false)).
Proof.
  split; [|split; [|split; [|split]]].
  - intros name listName [[|c b]|] [[|c' d]|] [p|]; unfold createReminder_script;
      cbn [bodyScript dueDateScript priorityScript truthy nonEmpty nonZero optionalClause];
      try destruct (number_truthy p); reflexivity.
  - intros name listName body dueDate priority script. subst script.
    unfold createReminder_script. split; [|split].
    + intros b -> Hb. destruct b as [|c b]; [contradiction|].
      cbn [bodyScript truthy]. found.
    + intros d -> Hd. destruct d as [|c d]; [contradiction|].
      cbn [dueDateScript truthy]. found.
    + intros p -> Hp. cbn [priorityScript]. rewrite Hp. found.
  - intros name listName [[|c b]|] [[|c' d]|] [p|]; unfold createReminder_script;
      cbn [bodyScript dueDateScript priorityScript truthy nonEmpty nonZero];
      try (destruct (number_truthy p) eqn:Hp; cbn [priorityScript]; rewrite ?Hp);
      reflexivity.
  - cbv zeta. repeat split; vm_compute; reflexivity.
  - intros execAsync name listName body dueDate priority stdout Hrun.
    destruct (trim_decompose stdout) as (w1 & w2 & Hw1 & Hw2 & Hs & Hhead & Hlast).
    exists (trim stdout), w1, w2. unfold createReminder, executeScript. rewrite Hrun.
    auto 10.
Qed.

Lemma createReminder_optional_clauses_witness :
  contains (lit "set body of newReminder to " ++ quoted (lit "2 litres"))
    (createReminder_script (lit "Buy milk") (lit "Personal") (Some (lit "2 litres"))
       None (Some (Num 1)))
  = true
  /\ contains (lit "set priority of newReminder to " ++ numberToString (Num 1))
       (createReminder_script (lit "Buy milk") (lit "Personal") (Some (lit "2 litres"))
          None (Some (Num 1)))
     = true
  /\ exists id leading trailing,
       createReminder (fun _ => Exited0 (lit "x-apple-reminder://42" ++ [lf]))
         (lit "Buy milk") (lit "Personal") None None None
       = Returned id
       /\ lit "x-apple-reminder://42" ++ [lf] = leading ++ id ++ trailing
       /\ forallb isWhiteSpace leading = true
       /\ forallb isWhiteSpace trailing = true
       /\ (forall c t, id = c :: t -> isWhiteSpace c = false)
       /\ (forall c t, id = t ++ [c] -> isWhiteSpace c = false).
Proof.
  destruct createReminder_optional_clauses as (_ & Hfound & _ & _ & Hreturn).
  destruct (Hfound (lit "Buy milk") (lit "Personal") (Some (lit "2 litres")) None
              (Some (Num 1))) as (Hbody & _ & Hpriority).
  split; [|split].
  - apply (Hbody (lit "2 litres")); [reflexivity | discriminate].
  - apply (Hpriority (Num 1)); reflexivity.
  - apply (Hreturn (fun _ => Exited0 (lit "x-apple-reminder://42" ++ [lf]))
             (lit "Buy milk") (lit "Personal") None None None).
    reflexivity.
Defined.

(** ** Escaping *)

Definition plainOpt (field : option jsstring) : Prop :=
  match field with
  | Some s => plain s
  | None => True
  end.

Lemma lexFrom_app (st : lexState) (a b : jsstring) :
  lexFrom st (a ++ b) = lexFrom (lexFrom st a) b.
Proof. apply fold_left_app. Qed.

Lemma lexFrom_plain (st : lexState) (s : jsstring) :
  st <> Escaped -> plain s -> lexFrom st s = st.
Proof.
  intros Hst Hs. revert st Hst.
  induction Hs as [|c s [Hdq Hbs] _ IH]; intros st Hst; [reflexivity|].
  cbn [lexFrom fold_left]. change (fold_left lexStep s ?x) with (lexFrom x s).
  assert (Hstep : lexStep st c = st).
  { destruct st; [| |contradiction]; simpl.
    - destruct (N.eqb_spec c dq); [contradiction | reflexivity].
    - destruct (N.eqb_spec c dq); [contradiction|].
      destruct (N.eqb_spec c backslash); [contradiction | reflexivity]. }
  rewrite Hstep. now apply IH.
Qed.

Lemma closed_app (a b : jsstring) :
  literalsClosed a -> literalsClosed b -> literalsClosed (a ++ b).
Proof. unfold literalsClosed. intros Ha Hb. now rewrite lexFrom_app, Ha. Qed.

Lemma closed_plain (s : jsstring) : plain s -> literalsClosed s.
Proof. apply lexFrom_plain. discriminate. Qed.

Lemma closed_quoted (v : jsstring) : plain v -> literalsClosed (quoted v).
Proof.
  intros Hv. unfold literalsClosed, quoted.
  change (dq :: v ++ [dq]) with ([dq] ++ v ++ [dq]).
  rewrite !lexFrom_app. change (lexFrom Code [dq]) with InString.
  now rewrite (lexFrom_plain InString v) by (discriminate || assumption).
Qed.

Lemma closed_join (sep : jsstring) (pieces : list jsstring) :
  literalsClosed sep -> Forall literalsClosed pieces -> literalsClosed (join sep pieces).
Proof.
  intros Hsep Hall. induction Hall as [|p ps Hp Hps IH]; [reflexivity|].
  destruct ps as [|q qs]; [exact Hp|].
  change (join sep (p :: q :: qs)) with (p ++ sep ++ join sep (q :: qs)).
  auto using closed_app.
Qed.

Lemma digits_plain (s : jsstring) : forallb isDigit s = true -> plain s.
Proof.
  induction s as [|c s IH]; simpl; [constructor|].
  rewrite andb_true_iff. intros [Hc Hs]. constructor; [|exact (IH Hs)].
  digit_cases c Hc; split; discriminate.
Qed.

Lemma plain_numberToString (n : number) : plain (numberToString n).
Proof.
  destruct n as [|z|[|]]; try (repeat constructor; discriminate).
  assert (Huint : forall d, plain (lit (NilZero.string_of_uint d))).
  { intros d. destruct d; try (apply digits_plain; apply (string_of_uint_digits (_ d))).
    repeat constructor; discriminate. }
  unfold numberToString, NilZero.string_of_int.
  destruct (Z.to_int z); [apply Huint|].
  cbn [lit]. constructor; [split; discriminate | apply Huint].
Qed.

(** Closes [literalsClosed] goals over the text of a script, piece by
    piece. *)
Ltac closed :=
  repeat first
    [ reflexivity
    | apply closed_quoted; assumption
    | apply closed_plain; (assumption || apply plain_numberToString)
    | apply closed_app ].

(** A string with no single quote. *)
Definition quoteFree (s : jsstring) : bool := forallb (fun c => negb (c =? sq)) s.

Definition quoteFreeOpt (field : option jsstring) : bool :=
  match field with
  | Some s => quoteFree s
  | None => true
  end.

Lemma escapeSingleQuotes_quoteFree (s : jsstring) :
  quoteFree s = true -> escapeSingleQuotes s = s.
Proof.
  induction s as [|c s IH]; simpl; [reflexivity|].
  rewrite andb_true_iff, negb_true_iff. intros [-> Hs]. now rewrite IH.
Qed.

Lemma quoteFree_app (a b : jsstring) :
  quoteFree a = true -> quoteFree b = true -> quoteFree (a ++ b) = true.
Proof. unfold quoteFree. rewrite forallb_app. now intros -> ->. Qed.

Lemma quoteFree_quoted (v : jsstring) : quoteFree v = true -> quoteFree (quoted v) = true.
Proof.
  intros Hv. unfold quoted. change (dq :: v ++ [dq]) with ([dq] ++ v ++ [dq]).
  apply quoteFree_app; [reflexivity|]. apply quoteFree_app; [assumption | reflexivity].
Qed.

Lemma quoteFree_join (sep : jsstring) (pieces : list jsstring) :
  quoteFree sep = true -> Forall (fun p => quoteFree p = true) pieces ->
  quoteFree (join sep pieces) = true.
Proof.
  intros Hsep Hall. induction Hall as [|p ps Hp Hps IH]; [reflexivity|].
  destruct ps as [|q qs]; [exact Hp|].
  change (join sep (p :: q :: qs)) with (p ++ sep ++ join sep (q :: qs)).
  auto using quoteFree_app.
Qed.

Lemma digits_quoteFree (s : jsstring) : forallb isDigit s = true -> quoteFree s = true.
Proof.
  induction s as [|c s IH]; simpl; [reflexivity|].
  rewrite andb_true_iff. intros [Hc Hs]. rewrite (IH Hs), andb_true_r.
  digit_cases c Hc; reflexivity.
Qed.

Lemma quoteFree_numberToString (n : number) : quoteFree (numberToString n) = true.
Proof.
  destruct n as [|z|[|]]; try reflexivity.
  assert (Huint : forall d, quoteFree (lit (NilZero.string_of_uint d)) = true).
  { intros d. destruct d;
      try (apply digits_quoteFree; apply (string_of_uint_digits (_ d))).
    reflexivity. }
  unfold numberToString, NilZero.string_of_int.
  destruct (Z.to_int z); [apply Huint|].
  cbn [lit]. change (quoteFree (?c :: ?s)) with (negb (c =? sq) && quoteFree s).
  now rewrite Huint.
Qed.

(** Closes [quoteFree] goals over the text of a script, piece by piece. *)
Ltac quotefree :=
  repeat match goal with
         | H : quoteFree ?v = true |- quoteFree ?v = true => exact H
         | |- quoteFree (quoted _) = true => apply quoteFree_quoted
         | |- quoteFree (numberToString _) = true => apply quoteFree_numberToString
         | |- quoteFree (_ ++ _) = true => apply quoteFree_app
         | |- quoteFree _ = true => solve [vm_compute; reflexivity]
         end.

Lemma updateCommands_quoteFree (updates : Updates.t) :
  quoteFreeOpt (Updates.name updates) = true ->
  quoteFreeOpt (Updates.body updates) = true ->
  quoteFreeOpt (Updates.dueDate updates) = true ->
  Forall (fun p => quoteFree p = true) (updateCommands updates).
Proof.
  intros Hname Hbody Hdue.
  rewrite updateCommands_nonEmptyFields. unfold specUpdateCommands.
  destruct updates as [[[|c s]|] [body|] [[|]|] [[|c' s']|] [priority|]];
    cbn [quoteFreeOpt Updates.name Updates.body Updates.dueDate] in Hname, Hbody, Hdue;
    cbn [nonEmptyFields nonEmpty clauseFor Updates.name Updates.body
           Updates.completed Updates.dueDate Updates.priority app];
    repeat match goal with
           | |- Forall _ (_ :: _) => constructor
           | |- Forall _ [] => constructor
           end;
    unfold setName, setBody, setCompleted, setDueDate, setPriority; quotefree.
Qed.

(** C1, as the specification states it, fails: a double quote in a name is
    interpolated as it is, and the command ends inside a string literal. *)
Lemma double_quote_is_not_escaped :
  let name := lit "5" ++ [dq] ++ lit " nail" in
  let script := createReminder_script name (lit "Personal") None None None in
  contains (lit "set name of newReminder to " ++ quoted name) script = true
  /\ lexFrom Code script = InString
  /\ ~ literalsClosed script.
Proof. cbv zeta. split; [reflexivity | split; [reflexivity | discriminate]]. Qed.

(** C1, amended: the builders interpolate each caller-supplied string as
    it is between double quotes, with no escaping of double quotes: the name,
    the list name, the body, the due date, the id and the search term are
    found in the script as written. Every string literal of the built script
    is closed whenever the interpolated strings hold neither a double quote
    nor a backslash; the field and group sentinels in them do not matter. A
    script that holds no single quote is handed to the interpreter as it is,
    between the single quotes of the command. *)
Theorem commands_of_plain_values_are_closed :
  (forall name listName body dueDate priority,
      let script := createReminder_script name listName body dueDate priority in
      contains (lit "set targetList to list " ++ quoted listName) script = true
      /\ contains (lit "set name of newReminder to " ++ quoted name) script = true
      /\ (forall b, nonEmpty body = Some b ->
                    contains (lit "set body of newReminder to " ++ quoted b) script = true)
      /\ (forall d, nonEmpty dueDate = Some d ->
                    contains (lit "set due date of newReminder to date " ++ quoted d)
                      script = true))
  /\ (forall reminderId updates,
         let script := updateReminder_script reminderId updates in
         contains (lit "set targetReminder to reminder id " ++ quoted reminderId) script
         = true
         /\ (forall v, nonEmpty (Updates.name updates) = Some v ->
                       contains (lit "set name of targetReminder to " ++ quoted v) script
                       = true)
         /\ (forall v, Updates.body updates = Some v ->
                       contains (lit "set body of targetReminder to " ++ quoted v) script
                       = true)
         /\ (forall v, nonEmpty (Updates.dueDate updates) = Some v ->
                       contains (lit "set due date of targetReminder to date " ++ quoted v)
                         script = true))
  /\ (forall reminderId,
         contains (lit "delete reminder id " ++ quoted reminderId)
           (deleteReminder_script reminderId) = true)
  /\ (forall listName completed l,
         nonEmpty listName = Some l ->
         contains (lit "in list " ++ quoted l) (getReminders_script listName completed)
         = true)
  /\ (forall searchTerm,
         contains (lit "if (name of rem) contains " ++ quoted searchTerm)
           (searchReminders_script searchTerm) = true
         /\ contains (lit " or (body of rem) contains " ++ quoted searchTerm)
              (searchReminders_script searchTerm) = true)
  /\ (forall name listName body dueDate priority,
         plain name -> plain listName -> plainOpt body -> plainOpt dueDate ->
         literalsClosed (createReminder_script name listName body dueDate priority))
  /\ (forall reminderId updates,
         plain reminderId -> plainOpt (Updates.name updates) ->
         plainOpt (Updates.body updates) -> plainOpt (Updates.dueDate updates) ->
         literalsClosed (updateReminder_script reminderId updates))
  /\ (forall reminderId, plain reminderId -> literalsClosed (deleteReminder_script reminderId))
  /\ (forall listName completed,
         plainOpt listName -> literalsClosed (getReminders_script listName completed))
  /\ (forall searchTerm, plain searchTerm -> literalsClosed (searchReminders_script searchTerm))
  /\ (forall script,
         quoteFree script = true ->
         osascriptCommand script = lit "osascript -e '" ++ script ++ [sq]).
Proof.
  split; [|split; [|split; [|split; [|split; [|split; [|split; [|split; [|split; [|split]]]]]]]]].
  - intros name listName body dueDate priority script. subst script.
    unfold createReminder_script. split; [|split; [|split]].
    + found.
    + found.
    + intros b Hb. destruct body as [[|c b']|]; try discriminate Hb.
      injection Hb as <-. cbn [bodyScript truthy]. found.
    + intros d Hd. destruct dueDate as [[|c d']|]; try discriminate Hd.
      injection Hd as <-. cbn [dueDateScript truthy]. found.
  - intros reminderId updates script. subst script.
    assert (Hclause : forall clause,
               In clause (specUpdateCommands (nonEmptyFields updates)) ->
               contains clause (updateReminder_script reminderId updates) = true).
    { intros clause Hin. unfold updateReminder_script.
      do 5 apply contains_skip. apply contains_app_l, contains_join.
      now rewrite updateCommands_nonEmptyFields. }
    split; [unfold updateReminder_script; found | split; [|split]];
      intros v Hv; apply Hclause; unfold specUpdateCommands, nonEmptyFields;
      cbn [Updates.name Updates.body Updates.completed Updates.dueDate Updates.priority];
      rewrite Hv, !in_app_iff; cbn [clauseFor In]; unfold setName, setBody, setDueDate;
      tauto.
  - intros reminderId. unfold deleteReminder_script. found.
  - intros listName completed l Hl. destruct listName as [[|c l']|]; try discriminate Hl.
    injection Hl as <-. unfold getReminders_script. cbn [listFilter truthy]. found.
  - intros searchTerm. unfold searchReminders_script. split; found.
  - intros name listName body dueDate priority Hname Hlist Hbody Hdue.
    unfold createReminder_script, bodyScript, dueDateScript, priorityScript.
    destruct body as [[|c b]|]; destruct dueDate as [[|c' d]|];
      destruct priority as [[|z|neg]|]; simpl in Hbody, Hdue;
      cbn [truthy number_truthy]; try destruct (negb (z =? 0)%Z); closed.
  - intros reminderId updates Hid Hname Hbody Hdue.
    unfold updateReminder_script. closed.
    apply closed_join; [reflexivity|].
    rewrite updateCommands_nonEmptyFields. unfold specUpdateCommands.
    destruct updates as [[[|c s]|] [body|] [[|]|] [[|c' s']|] [priority|]];
      simpl in Hname, Hbody, Hdue;
      cbn [nonEmptyFields nonEmpty clauseFor Updates.name Updates.body
             Updates.completed Updates.dueDate Updates.priority app];
      repeat match goal with
             | |- Forall _ (_ :: _) => constructor
             | |- Forall _ [] => constructor
             end;
      unfold setName, setBody, setCompleted, setDueDate, setPriority; closed.
  - intros reminderId Hid. unfold deleteReminder_script. closed.
  - intros listName completed Hlist. unfold getReminders_script, listFilter, completedFilter.
    destruct listName as [[|c l]|]; destruct completed as [[|]|]; simpl in Hlist;
      cbn [truthy]; closed.
  - intros searchTerm Hterm. unfold searchReminders_script. closed.
  - intros script H. unfold osascriptCommand. now rewrite escapeSingleQuotes_quoteFree.
Qed.

(** A search term with the field sentinel and the group separator in it. *)
Lemma commands_of_plain_values_are_closed_witness :
  literalsClosed (searchReminders_script (lit "50% " ++ sentinel ++ groupSeparator))
  /\ osascriptCommand (searchReminders_script (lit "50% " ++ sentinel ++ groupSeparator))
     = lit "osascript -e '"
       ++ searchReminders_script (lit "50% " ++ sentinel ++ groupSeparator) ++ [sq].
Proof.
  destruct commands_of_plain_values_are_closed
    as (_ & _ & _ & _ & _ & _ & _ & _ & _ & Hsearch & Hcommand).
  split.
  - apply (Hsearch (lit "50% " ++ sentinel ++ groupSeparator)).
    repeat (constructor; [split; discriminate|]). constructor.
  - apply (Hcommand (searchReminders_script (lit "50% " ++ sentinel ++ groupSeparator))).
    vm_compute. reflexivity.
Defined.

(** ** Further properties of the decoders *)

(** The line the statements of [reminderInfoLines] build from the texts of
    the properties of one reminder; [dueInfo] is [None] when reading the due
    date fails, and only the sentinel is appended. *)
Definition reminderInfo (name body completed list id creationDate modificationDate
    priority : jsstring) (dueInfo : option jsstring) : jsstring :=
  name ++ sentinel ++ body ++ sentinel ++ completed ++ sentinel ++ list ++ sentinel
  ++ id ++ sentinel ++ creationDate ++ sentinel ++ modificationDate ++ sentinel
  ++ priority ++ sentinel ++ match dueInfo with Some d => d | None => [] end.

Lemma reminderInfo_join (name body completed list id creationDate modificationDate
    priority : jsstring) (dueInfo : option jsstring) :
  reminderInfo name body completed list id creationDate modificationDate priority dueInfo
  = join sentinel
      [name; body; completed; list; id; creationDate; modificationDate; priority;
       match dueInfo with Some d => d | None => [] end].
Proof. reflexivity. Qed.

Lemma orElse_Some (s : jsstring) : orElse (Some s) [] = s.
Proof. now destruct s. Qed.

Lemma orUndefined_nonEmpty (x : option jsstring) : orUndefined x = nonEmpty x.
Proof. now destruct x as [[|c s]|]. Qed.

(** A line joined from sentinel-free slots decodes slot by slot. *)
Lemma decodeLine_join (slots : list jsstring) :
  slots <> [] -> Forall sentinelFree slots ->
  getReminders_decodeLine (join sentinel slots)
  = {| Reminder.name := orElse (slots !! 0%nat) [];
       Reminder.body := nonEmpty (slots !! 1%nat);
       Reminder.completed := bool_decide (slots !! 2%nat = Some (lit "true"));
       Reminder.list := orElse (slots !! 3%nat) [];
       Reminder.id := orElse (slots !! 4%nat) [];
       Reminder.creationDate := orElse (slots !! 5%nat) [];
       Reminder.modificationDate := orElse (slots !! 6%nat) [];
       Reminder.priority := orZero (parseInt (slots !! 7%nat));
       Reminder.dueDate := nonEmpty (slots !! 8%nat) |}.
Proof.
  intros Hne Hfree. unfold getReminders_decodeLine.
  rewrite split_join_sentinel by assumption.
  now rewrite !orUndefined_nonEmpty.
Qed.

Lemma digits_sentinelFree (s : jsstring) : forallb isDigit s = true -> sentinelFree s.
Proof.
  induction s as [|c s IH]; simpl; [constructor|].
  rewrite andb_true_iff. intros [Hc Hs]. constructor; [|exact (IH Hs)].
  digit_cases c Hc; discriminate.
Qed.

Lemma sentinelFree_numberToString (n : number) : sentinelFree (numberToString n).
Proof.
  destruct n as [|z|[|]]; try (repeat constructor; discriminate).
  assert (Huint : forall d, sentinelFree (lit (NilZero.string_of_uint d))).
  { intros d. destruct d;
      try (apply digits_sentinelFree; apply (string_of_uint_digits (_ d))).
    repeat constructor; discriminate. }
  unfold numberToString, NilZero.string_of_int.
  destruct (Z.to_int z); [apply Huint|].
  cbn [lit]. constructor; [discriminate | apply Huint].
Qed.

Lemma sentinelFree_boolToString (b : bool) : sentinelFree (boolToString b).
Proof. destruct b; repeat constructor; discriminate. Qed.

Lemma completed_boolToString (b : bool) :
  bool_decide (Some (boolToString b) = Some (lit "true")) = b.
Proof. now destruct b. Qed.

(** X1: a line built, as the script builds it, from sentinel-free texts, a
    boolean and an integer below 2^53 in magnitude decodes to the record with
    those very values; an empty body or due date, or a due date that could not
    be read, comes back absent. *)
Theorem reminder_line_round_trip
    (name body list id creationDate modificationDate : jsstring)
    (completed : bool) (priority : Z) (dueInfo : option jsstring) :
  Forall sentinelFree [name; body; list; id; creationDate; modificationDate] ->
  (forall d, dueInfo = Some d -> sentinelFree d) ->
  (Z.abs priority < 2 ^ 53)%Z ->
  getReminders_decodeLine
    (reminderInfo name body (boolToString completed) list id creationDate
       modificationDate (numberToString (Num priority)) dueInfo)
  = {| Reminder.id := id;
       Reminder.name := name;
       Reminder.body := nonEmpty (Some body);
       Reminder.completed := completed;
       Reminder.list := list;
       Reminder.dueDate := match dueInfo with Some d => nonEmpty (Some d) | None => None end;
       Reminder.priority := Num priority;
       Reminder.creationDate := creationDate;
       Reminder.modificationDate := modificationDate |}.
Proof.
  intros Hfree Hdue Hpriority.
  repeat match goal with H : Forall _ (_ :: _) |- _ => inversion_clear H end.
  rewrite reminderInfo_join, decodeLine_join.
  - cbn [lookup list_lookup]. rewrite !orElse_Some, completed_boolToString.
    rewrite parseInt_numberToString, toNumber_exact, orZero_Num by assumption.
    now destruct dueInfo.
  - discriminate.
  - repeat constructor; try assumption.
    + apply sentinelFree_boolToString.
    + apply sentinelFree_numberToString.
    + destruct dueInfo; [now apply Hdue | constructor].
Qed.

Lemma reminder_line_round_trip_witness :
  getReminders_decodeLine
    (reminderInfo (lit "Buy milk") [] (boolToString false) (lit "Personal")
       (lit "x-apple-reminder://42") (lit "d1") (lit "d2") (numberToString (Num 5)) None)
  = {| Reminder.id := lit "x-apple-reminder://42";
       Reminder.name := lit "Buy milk";
       Reminder.body := None;
       Reminder.completed := false;
       Reminder.list := lit "Personal";
       Reminder.dueDate := None;
       Reminder.priority := Num 5;
       Reminder.creationDate := lit "d1";
       Reminder.modificationDate := lit "d2" |}.
Proof.
  refine (reminder_line_round_trip (lit "Buy milk") [] (lit "Personal")
            (lit "x-apple-reminder://42") (lit "d1") (lit "d2") false 5 None _ _ _).
  - repeat constructor; discriminate.
  - discriminate.
  - reflexivity.
Defined.

(** X2: the line format cannot carry the sentinel inside a field. When the
    name holds one, the decoder takes what precedes it as the name and what
    follows as the body, and every later field moves one slot on: the list is
    the completed text, the id is the list, and so on. *)
Theorem sentinel_in_name_shifts_fields
    (before after body completed list id creationDate modificationDate priority
       : jsstring) (dueInfo : option jsstring) :
  Forall sentinelFree
    [before; after; body; completed; list; id; creationDate; modificationDate; priority] ->
  (forall d, dueInfo = Some d -> sentinelFree d) ->
  getReminders_decodeLine
    (reminderInfo (before ++ sentinel ++ after) body completed list id creationDate
       modificationDate priority dueInfo)
  = {| Reminder.id := list;
       Reminder.name := before;
       Reminder.body := nonEmpty (Some after);
       Reminder.completed := bool_decide (body = lit "true");
       Reminder.list := completed;
       Reminder.dueDate := nonEmpty (Some priority);
       Reminder.priority := orZero (parseInt (Some modificationDate));
       Reminder.creationDate := id;
       Reminder.modificationDate := creationDate |}.
Proof.
  intros Hfree Hdue.
  repeat match goal with H : Forall _ (_ :: _) |- _ => inversion_clear H end.
  assert (Hline : reminderInfo (before ++ sentinel ++ after) body completed list id
                    creationDate modificationDate priority dueInfo
                  = join sentinel
                      [before; after; body; completed; list; id; creationDate;
                       modificationDate; priority;
                       match dueInfo with Some d => d | None => [] end]).
  { unfold reminderInfo. cbn [join]. now rewrite <- !app_assoc. }
  rewrite Hline, decodeLine_join.
  - cbn [lookup list_lookup]. rewrite !orElse_Some.
    rewrite (bool_decide_ext (Some body = Some (lit "true")) (body = lit "true"))
      by (split; congruence).
    reflexivity.
  - discriminate.
  - repeat constructor; try assumption.
    destruct dueInfo; [now apply Hdue | constructor].
Qed.

Lemma sentinel_in_name_shifts_fields_witness :
  Reminder.name
    (getReminders_decodeLine
       (reminderInfo (lit "Pay" ++ sentinel ++ lit "rent") (lit "monthly") (lit "false")
          (lit "Home") (lit "id7") (lit "d1") (lit "d2") (lit "1") None))
  = lit "Pay"
  /\ Reminder.id
       (getReminders_decodeLine
          (reminderInfo (lit "Pay" ++ sentinel ++ lit "rent") (lit "monthly") (lit "false")
             (lit "Home") (lit "id7") (lit "d1") (lit "d2") (lit "1") None))
     = lit "Home".
Proof.
  rewrite (sentinel_in_name_shifts_fields (lit "Pay") (lit "rent") (lit "monthly")
             (lit "false") (lit "Home") (lit "id7") (lit "d1") (lit "d2") (lit "1") None).
  - split; reflexivity.
  - repeat constructor; discriminate.
  - discriminate.
Defined.

(** X3: the decoder reads the first nine slots of a line only: whatever
    follows the ninth is dropped without a trace. *)
Theorem slots_beyond_ninth_ignored (slots extra : list jsstring) :
  length slots = 9%nat ->
  Forall sentinelFree slots -> Forall sentinelFree extra ->
  getReminders_decodeLine (join sentinel (slots ++ extra))
  = getReminders_decodeLine (join sentinel slots).
Proof.
  intros Hlen Hslots Hextra.
  do 10 (destruct slots as [|? slots]; try discriminate Hlen).
  rewrite !decodeLine_join; try discriminate; [reflexivity | assumption |].
  apply Forall_app. now split.
Qed.

Lemma slots_beyond_ninth_ignored_witness :
  getReminders_decodeLine
    (join sentinel
       ([lit "a"; lit "b"; lit "true"; lit "L"; lit "i"; lit "c"; lit "m"; lit "1"; []]
        ++ [lit "second"; lit "reminder"]))
  = getReminders_decodeLine
      (join sentinel
         [lit "a"; lit "b"; lit "true"; lit "L"; lit "i"; lit "c"; lit "m"; lit "1"; []]).
Proof.
  apply (slots_beyond_ninth_ignored
           [lit "a"; lit "b"; lit "true"; lit "L"; lit "i"; lit "c"; lit "m"; lit "1"; []]
           [lit "second"; lit "reminder"]).
  - reflexivity.
  - repeat constructor; discriminate.
  - repeat constructor; discriminate.
Defined.

(** *** Lines *)

Lemma consChar_app (c : N) (xs ys : list jsstring) :
  xs <> [] -> consChar c (xs ++ ys) = consChar c xs ++ ys.
Proof. now destruct xs. Qed.

(** Splitting on one code unit distributes over an occurrence of it. *)
Lemma split_char_app (c : N) (a b : jsstring) :
  split [c] (a ++ c :: b) = split [c] a ++ split [c] b.
Proof.
  unfold split. induction a as [|x a IH].
  - cbn [app splitFrom isPrefix length Nat.sub]. now rewrite N.eqb_refl.
  - cbn [app splitFrom isPrefix length Nat.sub].
    destruct (c =? x); cbn [andb]; rewrite IH; [reflexivity|].
    apply consChar_app, splitFrom_nonempty.
Qed.

Lemma getReminders_decode_lines (result : jsstring) :
  getReminders_decode result = map getReminders_decodeLine (reminderLines result).
Proof. now destruct result. Qed.

Lemma trimStart_blank (s : jsstring) :
  forallb isWhiteSpace s = true -> trimStart s = [].
Proof.
  induction s as [|c s IH]; simpl; [reflexivity|].
  rewrite andb_true_iff. intros [-> Hs]. auto.
Qed.

Lemma trim_blank (s : jsstring) : forallb isWhiteSpace s = true -> trim s = [].
Proof. intros H. unfold trim. now rewrite (trimStart_blank s H). Qed.

Lemma splitFrom_forallb (P : N -> bool) (sep : jsstring) (skip : nat) (s : jsstring) :
  forallb P s = true -> Forall (fun piece => forallb P piece = true) (splitFrom sep skip s).
Proof.
  revert skip. induction s as [|c s IH]; intros skip; cbn [splitFrom forallb].
  - repeat constructor.
  - rewrite andb_true_iff. intros [Hc Hs].
    destruct skip as [|k]; [|now apply IH].
    destruct (isPrefix sep (c :: s)).
    + constructor; [reflexivity | now apply IH].
    + specialize (IH 0%nat Hs). destruct (splitFrom sep 0 s) as [|p ps]; simpl.
      * repeat constructor. simpl. now rewrite Hc.
      * inversion_clear IH. constructor; [|assumption]. simpl. now rewrite Hc.
Qed.

Lemma reminderLines_blank (s : jsstring) :
  forallb isWhiteSpace s = true -> reminderLines s = [].
Proof.
  intros H. unfold reminderLines, split.
  pose proof (splitFrom_forallb isWhiteSpace [lf] 0 s H) as Hpieces.
  induction Hpieces as [|p ps Hp _ IH]; [reflexivity|].
  cbn [List.filter]. now rewrite (trim_blank p Hp).
Qed.

(** X4: decoding is line by line. The records of two results joined by a
    line break are the records of the first followed by those of the second,
    and a stretch of white space gives no record; so a line break inside a
    field cuts its reminder in two. *)
Theorem getReminders_decode_linewise :
  (forall first second : jsstring,
      getReminders_decode (first ++ lf :: second)
      = getReminders_decode first ++ getReminders_decode second)
  /\ (forall blank : jsstring,
         forallb isWhiteSpace blank = true -> getReminders_decode blank = [])
  /\ (forall result : jsstring,
         length (getReminders_decode result) = length (reminderLines result)).
Proof.
  split; [|split].
  - intros first second. rewrite !getReminders_decode_lines.
    unfold reminderLines. rewrite split_char_app, List.filter_app. apply map_app.
  - intros blank H. now rewrite getReminders_decode_lines, reminderLines_blank.
  - intros result. rewrite getReminders_decode_lines. apply length_map.
Qed.

Lemma getReminders_decode_linewise_witness :
  getReminders_decode (lit "  " ++ [lf] ++ lit " ") = [].
Proof.
  apply (proj1 (proj2 getReminders_decode_linewise) (lit "  " ++ [lf] ++ lit " ")).
  reflexivity.
Defined.

(** ** Further properties of the bridge *)

(** X5: what [executeScript] returns is the standard output of the run
    with its leading and trailing white space removed and nothing else: the
    output is the returned text between two stretches of white space, and the
    returned text neither starts nor ends with white space. *)
Theorem executeScript_returns_trimmed_output
    (execAsync : jsstring -> execResult) (script stdout : jsstring) :
  execAsync (osascriptCommand script) = Exited0 stdout ->
  exists out leading trailing,
    executeScript execAsync script = Returned out
    /\ stdout = leading ++ out ++ trailing
    /\ forallb isWhiteSpace leading = true
    /\ forallb isWhiteSpace trailing = true
    /\ (forall c t, out = c :: t -> isWhiteSpace c = false)
    /\ (forall c t, out = t ++ [c] -> isWhiteSpace c = false).
Proof.
  intros Hrun.
  destruct (trim_decompose stdout) as (w1 & w2 & Hw1 & Hw2 & Hs & Hhead & Hlast).
  exists (trim stdout), w1, w2. unfold executeScript. rewrite Hrun. auto 10.
Qed.

Lemma executeScript_returns_trimmed_output_witness :
  exists out leading trailing,
    executeScript (fun _ => Exited0 (lit " id-1" ++ [lf])) (deleteReminder_script (lit "x"))
      = Returned out
    /\ lit " id-1" ++ [lf] = leading ++ out ++ trailing
    /\ forallb isWhiteSpace leading = true
    /\ forallb isWhiteSpace trailing = true
    /\ (forall c t, out = c :: t -> isWhiteSpace c = false)
    /\ (forall c t, out = t ++ [c] -> isWhiteSpace c = false).
Proof.
  apply (executeScript_returns_trimmed_output
           (fun _ => Exited0 (lit " id-1" ++ [lf])) (deleteReminder_script (lit "x"))).
  reflexivity.
Defined.

(** X6: when no interpolated string holds a single quote, the script of
    each of the six operations is handed to the shell exactly as it was built,
    between the two single quotes of the command: the replacement of
    [executeScript] changes nothing, the fixed text of the scripts holding no
    single quote of its own. *)
Theorem scripts_without_single_quotes_pass_unchanged :
  let unchanged script := osascriptCommand script = lit "osascript -e '" ++ script ++ [sq] in
  unchanged getReminderLists_script
  /\ (forall listName completed,
         quoteFreeOpt listName = true -> unchanged (getReminders_script listName completed))
  /\ (forall name listName body dueDate priority,
         quoteFree name = true -> quoteFree listName = true ->
         quoteFreeOpt body = true -> quoteFreeOpt dueDate = true ->
         unchanged (createReminder_script name listName body dueDate priority))
  /\ (forall reminderId updates,
         quoteFree reminderId = true ->
         quoteFreeOpt (Updates.name updates) = true ->
         quoteFreeOpt (Updates.body updates) = true ->
         quoteFreeOpt (Updates.dueDate updates) = true ->
         unchanged (updateReminder_script reminderId updates))
  /\ (forall reminderId,
         quoteFree reminderId = true -> unchanged (deleteReminder_script reminderId))
  /\ (forall searchTerm,
         quoteFree searchTerm = true -> unchanged (searchReminders_script searchTerm)).
Proof.
  assert (Hunchanged : forall script,
             quoteFree script = true ->
             osascriptCommand script = lit "osascript -e '" ++ script ++ [sq]).
  { intros script H. unfold osascriptCommand. now rewrite escapeSingleQuotes_quoteFree. }
  cbv zeta.
  split; [|split; [|split; [|split; [|split]]]]; intros; apply Hunchanged.
  - reflexivity.
  - unfold getReminders_script, listFilter, completedFilter.
    destruct listName as [[|c l]|]; destruct completed as [[|]|];
      cbn [truthy boolToString quoteFreeOpt] in *; quotefree.
  - unfold createReminder_script, bodyScript, dueDateScript, priorityScript.
    destruct body as [[|c b]|]; destruct dueDate as [[|c' d]|];
      destruct priority as [p|]; try destruct (number_truthy p);
      cbn [truthy quoteFreeOpt] in *; quotefree.
  - unfold updateReminder_script. quotefree.
    apply quoteFree_join; [reflexivity | now apply updateCommands_quoteFree].
  - unfold deleteReminder_script. quotefree.
  - unfold searchReminders_script. quotefree.
Qed.

Lemma scripts_without_single_quotes_pass_unchanged_witness :
  osascriptCommand (deleteReminder_script (lit "x-apple-reminder://42"))
  = lit "osascript -e '" ++ deleteReminder_script (lit "x-apple-reminder://42") ++ [sq].
Proof.
  refine (proj1 (proj2 (proj2 (proj2 (proj2
            scripts_without_single_quotes_pass_unchanged))))
            (lit "x-apple-reminder://42") _).
  reflexivity.
Defined.

Lemma escapeSingleQuotes_injective (s t : jsstring) :
  escapeSingleQuotes s = escapeSingleQuotes t -> s = t.
Proof.
  revert t. induction s as [|c s IH]; intros [|d t]; cbn [escapeSingleQuotes].
  - reflexivity.
  - destruct (d =? sq); discriminate.
  - destruct (c =? sq); discriminate.
  - destruct (N.eqb_spec c sq) as [->|Hc], (N.eqb_spec d sq) as [->|Hd].
    + intros [= H]. f_equal. now apply IH.
    + intros [= <- H]. destruct t as [|e t]; [discriminate|].
      cbn [escapeSingleQuotes] in H.
      destruct (N.eqb_spec e sq) as [->|He]; [discriminate|].
      injection H as He' _. now subst e.
    + intros [= -> H]. destruct s as [|e s]; [discriminate|].
      cbn [escapeSingleQuotes] in H.
      destruct (N.eqb_spec e sq) as [->|He]; [discriminate|].
      injection H as He' _. now subst e.
    + intros [= -> H]. f_equal. now apply IH.
Qed.

(** X7: the command of [executeScript] determines the script: two scripts
    that differ never give the same shell command. *)
Theorem osascriptCommand_injective (script script' : jsstring) :
  osascriptCommand script = osascriptCommand script' -> script = script'.
Proof.
  unfold osascriptCommand. intros H.
  apply app_inv_head in H. apply app_inv_tail in H.
  now apply escapeSingleQuotes_injective.
Qed.

Lemma osascriptCommand_injective_witness :
  deleteReminder_script (lit "a") = deleteReminder_script (lit "a").
Proof.
  apply (osascriptCommand_injective
           (deleteReminder_script (lit "a")) (deleteReminder_script (lit "a"))).
  reflexivity.
Defined.

(** ** Further properties of the list decoder *)

Lemma join_around (sep middle : jsstring) (xs ys : list jsstring) :
  join sep (xs ++ middle :: ys) = join sep (xs ++ [[]]) ++ middle ++ join sep ([] :: ys).
Proof.
  induction xs as [|x xs IH].
  - destruct ys; simpl; now rewrite ?app_nil_r.
  - change ((x :: xs) ++ middle :: ys) with (x :: (xs ++ middle :: ys)).
    change ((x :: xs) ++ [[]]) with (x :: (xs ++ [[]])).
    assert (Hcons : forall l, l <> [] -> join sep (x :: l) = x ++ sep ++ join sep l).
    { intros [|y l] H; [contradiction | reflexivity]. }
    rewrite !Hcons by (destruct xs; discriminate).
    rewrite IH. now rewrite <- !app_assoc.
Qed.

Lemma listItem_comma (l : list jsstring) :
  Forall listItem l -> Forall (Forall (fun c => c <> 44)) l.
Proof.
  intros Hl. eapply Forall_impl; [exact Hl|]. intros s Hs.
  eapply Forall_impl; [exact Hs|]. simpl. tauto.
Qed.

Lemma listItem_bar (l : list jsstring) :
  Forall listItem l -> Forall (Forall (fun c => c <> 124)) l.
Proof.
  intros Hl. eapply Forall_impl; [exact Hl|]. intros s Hs.
  eapply Forall_impl; [exact Hs|]. simpl. tauto.
Qed.

(** X8: when the group separator comes as one more item of a single
    comma-and-space-separated enumeration (names, then the separator, then
    ids), the pairing is off by one: the decoder returns one list more than
    there are names, the last with an empty name, and gives each name the id
    that precedes its own, the first name an empty id; the last id is paired
    with the empty name. *)
Theorem separator_as_item_shifts_pairing (names ids : list jsstring) :
  Forall listItem names -> Forall listItem ids ->
  decodeLists (join (lit ", ") (names ++ [groupSeparator] ++ ids))
  = Returned
      (imap (fun i name =>
               RemindersList.mk (trim name)
                 (match ([] :: ids) !! i with Some x => trim x | None => [] end))
            (names ++ [[]])).
Proof.
  intros Hnames Hids.
  set (namesStr := join (lit ", ") (names ++ [[]])).
  set (idsStr := join (lit ", ") ([] :: ids)).
  assert (Hline : join (lit ", ") (names ++ [groupSeparator] ++ ids)
                  = namesStr ++ groupSeparator ++ idsStr) by apply join_around.
  assert (Hgroups : split groupSeparator (namesStr ++ groupSeparator ++ idsStr)
                    = [namesStr; idsStr]).
  { apply (split_join 124 (lit "||") [namesStr; idsStr]); [discriminate|].
    repeat constructor; apply join_Forall;
      try (repeat constructor; discriminate).
    - apply Forall_app. split; [now apply listItem_bar | repeat constructor].
    - constructor; [constructor | now apply listItem_bar]. }
  assert (Hsplitnames : split (lit ", ") namesStr = names ++ [[]]).
  { apply (split_join 44 (lit " ")); [destruct names; discriminate|].
    apply Forall_app. split; [now apply listItem_comma | repeat constructor]. }
  assert (Hsplitids : split (lit ", ") idsStr = [] :: ids).
  { apply (split_join 44 (lit " ")); [discriminate|].
    constructor; [constructor | now apply listItem_comma]. }
  rewrite Hline. unfold decodeLists. rewrite Hgroups, Hsplitnames, Hsplitids.
  f_equal. apply imap_ext. intros i name _. simpl. now rewrite orElse_trim.
Qed.

Lemma separator_as_item_shifts_pairing_witness :
  decodeLists (lit "A, B, |||, id1, id2")
  = Returned [RemindersList.mk (lit "A") [];
              RemindersList.mk (lit "B") (lit "id1");
              RemindersList.mk [] (lit "id2")].
Proof.
  refine (separator_as_item_shifts_pairing [lit "A"; lit "B"] [lit "id1"; lit "id2"] _ _);
    repeat constructor; discriminate.
Defined.

(** A text with no white space at either end. *)
Definition trimmed (s : jsstring) : Prop :=
  (forall c t, s = c :: t -> isWhiteSpace c = false)
  /\ (forall c t, s = t ++ [c] -> isWhiteSpace c = false).

Lemma trim_trimmed (s : jsstring) : trimmed (trim s).
Proof.
  destruct (trim_decompose s) as (_ & _ & _ & _ & _ & Hhead & Hlast). now split.
Qed.

Lemma nil_trimmed : trimmed [].
Proof. split; intros c t H; [discriminate | now destruct t]. Qed.

(** X9: whenever the list decoder returns, it returns at least one list,
    also for a host with no list at all, and every name and id it returns is
    free of white space at both ends. *)
Theorem decodeLists_never_empty (result : jsstring) (lists : list RemindersList.t) :
  decodeLists result = Returned lists ->
  lists <> []
  /\ Forall (fun l => trimmed (RemindersList.name l) /\ trimmed (RemindersList.id l)) lists.
Proof.
  unfold decodeLists.
  destruct (split groupSeparator result) as [|namesStr [|idsStr rest]]; try discriminate.
  assert (Hne : split (lit ", ") namesStr <> []) by (apply split_nonempty; discriminate).
  set (names := split (lit ", ") namesStr) in *.
  set (ids := split (lit ", ") idsStr). clearbody names ids.
  intros [= <-]. split.
  - destruct names as [|n ns]; [contradiction|].
    intros H. apply (f_equal length) in H. rewrite length_imap in H. discriminate H.
  - apply Forall_lookup. intros i l. rewrite list_lookup_imap.
    destruct (names !! i) as [name|]; [|discriminate].
    intros [= <-]. cbn [RemindersList.name RemindersList.id]. split.
    + apply trim_trimmed.
    + rewrite orElse_trim. destruct (ids !! i); [apply trim_trimmed | apply nil_trimmed].
Qed.

Lemma decodeLists_never_empty_witness :
  [RemindersList.mk [] []] <> []
  /\ Forall (fun l => trimmed (RemindersList.name l) /\ trimmed (RemindersList.id l))
       [RemindersList.mk [] []].
Proof.
  apply (decodeLists_never_empty groupSeparator [RemindersList.mk [] []]).
  reflexivity.
Defined.

(** ** Properties of the server *)

(** The names the server advertises. *)
Definition toolNames : list jsstring := map Tool.name tools.

(** The script a call of an advertised tool hands to the executor, given the
    arguments of the call. *)
Definition toolScript (name : jsstring) (args : Arguments.t) : jsstring :=
  if bool_decide (name = lit "list_reminder_lists") then getReminderLists_script
  else if bool_decide (name = lit "get_reminders") then
    match nonEmpty (Arguments.searchTerm args) with
    | Some searchTerm => searchReminders_script searchTerm
    | None => getReminders_script (Arguments.listName args) (Arguments.completed args)
    end
  else if bool_decide (name = lit "create_reminder") then
    createReminder_script
      (interpolated (Arguments.name args)) (interpolated (Arguments.listName args))
      (Arguments.body args) (Arguments.dueDate args) (Arguments.priority args)
  else if bool_decide (name = lit "update_reminder") then
    updateReminder_script (interpolated (Arguments.reminderId args)) (restUpdates args)
  else if bool_decide (name = lit "delete_reminder") then
    deleteReminder_script (interpolated (Arguments.reminderId args))
  else searchReminders_script (interpolated (Arguments.searchTerm args)).

(** Decides the comparisons of a closed tool name with the names of the
    [switch]. *)
Ltac pick_tool :=
  repeat match goal with
         | |- context [bool_decide (?a = ?b)] =>
             first
               [ rewrite (bool_decide_eq_true_2 (a = b)) by reflexivity
               | rewrite (bool_decide_eq_false_2 (a = b)) by (vm_compute; discriminate) ]
         end;
  cbv beta iota.

Lemma In_toolNames (name : jsstring) :
  In name toolNames ->
  name = lit "list_reminder_lists" \/ name = lit "get_reminders"
  \/ name = lit "create_reminder" \/ name = lit "update_reminder"
  \/ name = lit "delete_reminder" \/ name = lit "search_reminders".
Proof.
  unfold toolNames, tools. cbn [map Tool.name In].
  intros [H | [H | [H | [H | [H | [H | []]]]]]]; symmetry in H; tauto.
Qed.

Section ServerProperties.

Variable execAsync : jsstring -> execResult.
Variable stringifyLists : list RemindersList.t -> jsstring.
Variable stringifyReminders : list Reminder.t -> jsstring.
Variable typeErrorMessage : Request.t -> jsstring.

Let handler := callToolHandler execAsync stringifyLists stringifyReminders typeErrorMessage.
Let try_ := callTool execAsync stringifyLists stringifyReminders.

Lemma callTool_unknown (request : Request.t) :
  ~ In (Request.name request) toolNames ->
  try_ request = Thrown (Error (lit "Unknown tool: " ++ Request.name request)).
Proof.
  intros Hout. unfold try_, callTool. cbv zeta.
  repeat (case_bool_decide as Hname;
          [ exfalso; apply Hout; rewrite Hname; unfold toolNames, tools;
            cbn [map Tool.name In]; tauto | clear Hname ]).
  reflexivity.
Qed.

(** What running the script of a call gives decides what the call
    returns. *)
Lemma callTool_rejected (name : jsstring) (args : Arguments.t) (diagnostic : jsstring) :
  In name toolNames ->
  execAsync (osascriptCommand (toolScript name args)) = Rejected diagnostic ->
  try_ (Request.mk name (Some args)) = Thrown (executionFailed diagnostic).
Proof.
  intros Hname. apply In_toolNames in Hname.
  destruct Hname as [-> | [-> | [-> | [-> | [-> | ->]]]]];
    unfold try_, callTool, toolScript; cbn [Request.name]; cbv zeta; pick_tool;
    cbn [destructure Request.arguments bind]; intros Hrun.
  - unfold getReminderLists, executeScript. now rewrite Hrun.
  - unfold getRemindersTool. cbv zeta.
    destruct (Arguments.searchTerm args) as [[|c term]|]; cbn [nonEmpty truthy] in *;
      unfold getReminders, searchReminders, executeScript; now rewrite Hrun.
  - unfold createReminder, executeScript. now rewrite Hrun.
  - unfold updateReminder, executeScript. now rewrite Hrun.
  - unfold deleteReminder, executeScript. now rewrite Hrun.
  - unfold searchReminders, executeScript. now rewrite Hrun.
Qed.

Lemma callTool_exited (name : jsstring) (args : Arguments.t) (stdout : jsstring) :
  In name toolNames -> name <> lit "list_reminder_lists" ->
  execAsync (osascriptCommand (toolScript name args)) = Exited0 stdout ->
  exists result, try_ (Request.mk name (Some args)) = Returned (textResult result).
Proof.
  intros Hname Hlist. apply In_toolNames in Hname.
  destruct Hname as [-> | [-> | [-> | [-> | [-> | ->]]]]]; [contradiction|..];
    unfold try_, callTool, toolScript; cbn [Request.name]; cbv zeta; pick_tool;
    cbn [destructure Request.arguments bind]; intros Hrun.
  - unfold getRemindersTool. cbv zeta.
    destruct (Arguments.searchTerm args) as [[|c term]|]; cbn [nonEmpty truthy] in *;
      unfold getReminders, searchReminders, executeScript; rewrite Hrun;
      eexists; reflexivity.
  - unfold createReminder, executeScript. rewrite Hrun. eexists; reflexivity.
  - unfold updateReminder, executeScript. rewrite Hrun. eexists; reflexivity.
  - unfold deleteReminder, executeScript. rewrite Hrun. eexists; reflexivity.
  - unfold searchReminders, executeScript. rewrite Hrun. eexists; reflexivity.
Qed.

Lemma executionFailed_not_unknown (diagnostic name : jsstring) :
  executionFailed diagnostic <> Error (lit "Unknown tool: " ++ name).
Proof. unfold executionFailed. now intros [= H]. Qed.

(** X10: the names the dispatcher serves are exactly the six names the
    server advertises. A call of any other name is answered with the error
    [Unknown tool: ] and the name, whatever the host and the arguments, and a
    call of an advertised name is never answered so. *)
Theorem advertised_tools_are_the_dispatched_ones (request : Request.t) :
  (try_ request = Thrown (Error (lit "Unknown tool: " ++ Request.name request))
   <-> ~ In (Request.name request) toolNames)
  /\ (~ In (Request.name request) toolNames ->
      handler request = errorResult (lit "Unknown tool: " ++ Request.name request)).
Proof.
  split.
  - split; [|apply callTool_unknown].
    intros Hthrown Hin. destruct request as [name arguments]. cbn [Request.name] in *.
    destruct (bool_decide (name = lit "list_reminder_lists")) eqn:Hlist.
    + apply bool_decide_eq_true_1 in Hlist. subst name. revert Hthrown.
      unfold try_, callTool. cbn [Request.name]. cbv zeta. pick_tool.
      unfold getReminderLists, executeScript.
      destruct (execAsync (osascriptCommand getReminderLists_script)) as [stdout|d];
        cbn [bind].
      * destruct (decodeLists (trim stdout)) as [lists|e] eqn:Hdecode; [discriminate|].
        unfold decodeLists in Hdecode.
        destruct (split groupSeparator (trim stdout)) as [|? [|? ?]];
          first [discriminate Hdecode | injection Hdecode as <-; discriminate].
      * intros H. apply (executionFailed_not_unknown d (lit "list_reminder_lists")).
        unfold executionFailed. congruence.
    + apply bool_decide_eq_false_1 in Hlist. destruct arguments as [args|].
      * destruct (execAsync (osascriptCommand (toolScript name args))) as [stdout|d] eqn:Hrun.
        -- destruct (callTool_exited name args stdout Hin Hlist Hrun) as (result & Hresult).
           rewrite Hresult in Hthrown. discriminate.
        -- rewrite (callTool_rejected name args d Hin Hrun) in Hthrown.
           apply (executionFailed_not_unknown d name). congruence.
      * revert Hthrown. apply In_toolNames in Hin.
        destruct Hin as [-> | [-> | [-> | [-> | [-> | ->]]]]]; [contradiction|..];
          unfold try_, callTool; cbn [Request.name]; cbv zeta; pick_tool; discriminate.
  - intros Hout. unfold handler, callToolHandler. fold try_.
    now rewrite (callTool_unknown request Hout).
Qed.

(** X11: a call of an advertised tool with arguments present depends on
    the host through one command only, that of the script of the call. When
    that command is rejected the answer is an error that carries the
    diagnostic text after [Error: AppleScript execution failed: ]; when it
    exits with status 0 the answer of every tool but [list_reminder_lists]
    is not an error. *)
Theorem tool_call_follows_its_command (name : jsstring) (args : Arguments.t) :
  In name toolNames ->
  (forall diagnostic,
      execAsync (osascriptCommand (toolScript name args)) = Rejected diagnostic ->
      handler (Request.mk name (Some args))
      = errorResult (lit "AppleScript execution failed: " ++ diagnostic))
  /\ (forall stdout,
         name <> lit "list_reminder_lists" ->
         execAsync (osascriptCommand (toolScript name args)) = Exited0 stdout ->
         ToolResult.isError (handler (Request.mk name (Some args))) = false).
Proof.
  intros Hin. split.
  - intros d Hrun. unfold handler, callToolHandler. fold try_.
    now rewrite (callTool_rejected name args d Hin Hrun).
  - intros stdout Hlist Hrun. unfold handler, callToolHandler. fold try_.
    destruct (callTool_exited name args stdout Hin Hlist Hrun) as (result & ->).
    reflexivity.
Qed.

(** X12: a call of an advertised tool other than [list_reminder_lists]
    that carries no arguments object is answered with the type error of the
    destructuring, and no command is run: the answer is the same for every
    host. *)
Theorem missing_arguments_are_an_error (name : jsstring) :
  In name toolNames -> name <> lit "list_reminder_lists" ->
  handler (Request.mk name None) = errorResult (typeErrorMessage (Request.mk name None)).
Proof.
  intros Hin Hlist. apply In_toolNames in Hin.
  destruct Hin as [-> | [-> | [-> | [-> | [-> | ->]]]]]; [contradiction|..];
    unfold handler, callToolHandler, callTool; cbn [Request.name]; cbv zeta; pick_tool;
    reflexivity.
Qed.

Lemma List_filter_sublist {A : Type} (f : A -> bool) (l : list A) :
  sublist (List.filter f l) l.
Proof.
  induction l as [|x l IH]; simpl; [constructor|].
  destruct (f x); now constructor.
Qed.

(** Whether a reminder passes the two filters of [get_reminders]. *)
Definition passesFilters (listName : option jsstring) (completed : option bool)
    (r : Reminder.t) : Prop :=
  (forall l, listName = Some l -> l <> [] -> Reminder.list r = l)
  /\ (forall c, completed = Some c -> Reminder.completed r = c).

Lemma filters_keep_passing (listName : option jsstring) (completed : option bool)
    (found : list Reminder.t) (r : Reminder.t) :
  In r (filterByCompleted completed (filterByList listName found))
  <-> In r found /\ passesFilters listName completed r.
Proof.
  assert (Hlist : In r (filterByList listName found)
                  <-> In r found /\ forall l, listName = Some l -> l <> [] -> Reminder.list r = l).
  { unfold filterByList. destruct listName as [[|c l]|]; cbn [truthy].
    - split; [intros H; split; [exact H|] | tauto]. intros l [= <-] Hl. contradiction.
    - rewrite List.filter_In, bool_decide_eq_true. split.
      + intros [Hin Heq]. split; [exact Hin|]. now intros l' [= <-] _.
      + intros [Hin Heq]. split; [exact Hin|]. now apply Heq.
    - split; [intros H; split; [exact H|] | tauto]. discriminate. }
  unfold passesFilters, filterByCompleted. destruct completed as [c|].
  - rewrite List.filter_In, Hlist, Bool.eqb_true_iff. split.
    + intros [[Hin Hl] Hc]. repeat split; try assumption. now intros c' [= <-].
    + intros (Hin & Hl & Hc). repeat split; try assumption. now apply Hc.
  - rewrite Hlist. split; [|tauto]. intros [Hin Hl]. repeat split; try assumption.
    discriminate.
Qed.

(** X13: [get_reminders] with a search term runs the search command only;
    the list name and the completion flag play no part in the command and are
    applied to what the search found. The reminders printed are those found
    that belong to the list (when a non-empty list name is given) and have the
    completion state asked for (when one is given), all of them and no other,
    in the order found. *)
Theorem get_reminders_filters_the_search (args : Arguments.t)
    (searchTerm stdout : jsstring) :
  Arguments.searchTerm args = Some searchTerm -> searchTerm <> [] ->
  execAsync (osascriptCommand (searchReminders_script searchTerm)) = Exited0 stdout ->
  let found := searchReminders_decode (trim stdout) in
  exists kept,
    handler (Request.mk (lit "get_reminders") (Some args))
    = textResult (stringifyReminders kept)
    /\ sublist kept found
    /\ forall r,
         In r kept
         <-> In r found
             /\ passesFilters (Arguments.listName args) (Arguments.completed args) r.
Proof.
  intros Hterm Hne Hrun found.
  exists (filterByCompleted (Arguments.completed args)
            (filterByList (Arguments.listName args) found)).
  split; [|split].
  - unfold handler, callToolHandler, callTool. cbn [Request.name]. cbv zeta. pick_tool.
    cbn [destructure Request.arguments bind]. unfold getRemindersTool. cbv zeta.
    rewrite Hterm. destruct searchTerm as [|c term]; [contradiction|]. cbn [truthy].
    unfold searchReminders, executeScript. now rewrite Hrun.
  - unfold filterByCompleted, filterByList.
    destruct (Arguments.completed args), (Arguments.listName args) as [[|c l]|];
      cbn [truthy];
      repeat (etransitivity; [apply List_filter_sublist|]); reflexivity.
  - intros r. apply filters_keep_passing.
Qed.

Lemma Forall_trim (P : N -> Prop) (s : jsstring) : Forall P s -> Forall P (trim s).
Proof.
  destruct (trim_decompose s) as (w1 & w2 & _ & _ & Hs & _).
  intros H. rewrite Hs in H. apply Forall_app in H as [_ H].
  now apply Forall_app in H as [H _].
Qed.

Lemma split_no_separator (c0 : N) (sep' s : jsstring) :
  Forall (fun c => c <> c0) s -> split (c0 :: sep') s = [s].
Proof.
  intros H. apply (split_join c0 sep' [s]); [discriminate | now repeat constructor].
Qed.

(** X14: [list_reminder_lists] answers with an error, the type error of
    the decoder, whenever the run succeeds with an output that holds no
    vertical bar, the empty output of a host without lists among them; an
    output the decoder accepts is answered with the lists printed. *)
Theorem list_output_without_separator_is_an_error (arguments : option Arguments.t)
    (stdout : jsstring) :
  execAsync (osascriptCommand getReminderLists_script) = Exited0 stdout ->
  let request := Request.mk (lit "list_reminder_lists") arguments in
  (Forall (fun c => c <> 124) stdout ->
   handler request = errorResult (typeErrorMessage request))
  /\ (forall lists,
         decodeLists (trim stdout) = Returned lists ->
         handler request = textResult (stringifyLists lists)).
Proof.
  intros Hrun request.
  assert (Hhandler : handler request
                     = match decodeLists (trim stdout) with
                       | Returned lists => textResult (stringifyLists lists)
                       | Thrown e =>
                           errorResult
                             (errorMessage typeErrorMessage request e)
                       end).
  { unfold handler, callToolHandler, callTool, request. cbn [Request.name]. cbv zeta.
    pick_tool. unfold getReminderLists, executeScript. rewrite Hrun. cbn [bind].
    now destruct (decodeLists (trim stdout)). }
  rewrite Hhandler. split.
  - intros Hbar. unfold decodeLists, groupSeparator.
    change (lit "|||") with (124 :: lit "||").
    now rewrite (split_no_separator 124 (lit "||") (trim stdout) (Forall_trim _ _ Hbar)).
  - now intros lists ->.
Qed.

End ServerProperties.

Lemma advertised_tools_are_the_dispatched_ones_witness :
  callToolHandler (fun _ => Exited0 []) (fun _ => []) (fun _ => []) (fun _ => [])
    (Request.mk (lit "move_reminder") None)
  = errorResult (lit "Unknown tool: move_reminder").
Proof.
  refine (proj2 (advertised_tools_are_the_dispatched_ones
                   (fun _ => Exited0 []) (fun _ => []) (fun _ => []) (fun _ => [])
                   (Request.mk (lit "move_reminder") None)) _).
  vm_compute. intuition discriminate.
Defined.

Definition noArguments : Arguments.t :=
  Arguments.mk None None None None None None None None.

Lemma tool_call_follows_its_command_witness :
  callToolHandler (fun _ => Rejected (lit "Not authorized (-1743)"))
    (fun _ => []) (fun _ => []) (fun _ => [])
    (Request.mk (lit "delete_reminder") (Some noArguments))
  = errorResult (lit "AppleScript execution failed: Not authorized (-1743)").
Proof.
  refine (proj1 (tool_call_follows_its_command
                   (fun _ => Rejected (lit "Not authorized (-1743)"))
                   (fun _ => []) (fun _ => []) (fun _ => [])
                   (lit "delete_reminder") noArguments _)
            (lit "Not authorized (-1743)") _).
  - vm_compute. tauto.
  - reflexivity.
Defined.

Lemma missing_arguments_are_an_error_witness :
  callToolHandler (fun _ => Exited0 []) (fun _ => []) (fun _ => [])
    (fun _ => lit "Cannot destructure") (Request.mk (lit "get_reminders") None)
  = errorResult (lit "Cannot destructure").
Proof.
  refine (missing_arguments_are_an_error
            (fun _ => Exited0 []) (fun _ => []) (fun _ => [])
            (fun _ => lit "Cannot destructure") (lit "get_reminders") _ _).
  - vm_compute. tauto.
  - vm_compute. discriminate.
Defined.

(** A host that finds three reminders, one of them open and in the list
    asked for, and a printer that gives the names. *)
Definition meetingsFound : jsstring :=
  reminderInfo (lit "Standup meeting") [] (lit "false") (lit "Work") (lit "id1")
    (lit "d1") (lit "d2") (lit "0") None
  ++ [lf]
  ++ reminderInfo (lit "Book meeting room") [] (lit "true") (lit "Work") (lit "id2")
       (lit "d1") (lit "d2") (lit "0") None
  ++ [lf]
  ++ reminderInfo (lit "Family meeting") [] (lit "false") (lit "Home") (lit "id3")
       (lit "d1") (lit "d2") (lit "0") None.

Definition printNames (reminders : list Reminder.t) : jsstring :=
  join (lit ", ") (map Reminder.name reminders).

Definition openWorkMeetings : Arguments.t :=
  Arguments.mk None None (Some (lit "Work")) None (Some false) None None
    (Some (lit "meeting")).

Lemma get_reminders_filters_the_search_witness :
  (exists kept,
      callToolHandler (fun _ => Exited0 meetingsFound) (fun _ => []) printNames
        (fun _ => []) (Request.mk (lit "get_reminders") (Some openWorkMeetings))
      = textResult (printNames kept)
      /\ sublist kept (searchReminders_decode (trim meetingsFound))
      /\ forall r,
           In r kept
           <-> In r (searchReminders_decode (trim meetingsFound))
               /\ passesFilters (Some (lit "Work")) (Some false) r)
  /\ length (searchReminders_decode (trim meetingsFound)) = 3%nat
  /\ callToolHandler (fun _ => Exited0 meetingsFound) (fun _ => []) printNames
       (fun _ => []) (Request.mk (lit "get_reminders") (Some openWorkMeetings))
     = textResult (lit "Standup meeting").
Proof.
  split; [|split; vm_compute; reflexivity].
  refine (get_reminders_filters_the_search
            (fun _ => Exited0 meetingsFound) (fun _ => []) printNames (fun _ => [])
            openWorkMeetings (lit "meeting") meetingsFound _ _ _).
  - reflexivity.
  - discriminate.
  - reflexivity.
Defined.

Lemma list_output_without_separator_is_an_error_witness :
  callToolHandler (fun _ => Exited0 []) (fun _ => []) (fun _ => [])
    (fun _ => lit "Cannot read properties of undefined")
    (Request.mk (lit "list_reminder_lists") None)
  = errorResult (lit "Cannot read properties of undefined").
Proof.
  refine (proj1 (list_output_without_separator_is_an_error
                   (fun _ => Exited0 []) (fun _ => []) (fun _ => [])
                   (fun _ => lit "Cannot read properties of undefined") None [] _) _).
  - reflexivity.
  - constructor.
Defined.
